(** * The OAuth token lifecycle of [SpotifyAuth]

    A shallow embedding of [scripts/server-src/auth/spotifyAuth.ts]: the
    class [SpotifyAuth] with its token file, its refresh-on-demand access
    token and its one-shot callback listener.

    The class talks to four things outside itself: the file system ([fs]),
    the clock ([Date.now]), the token endpoint ([axios.post]) and the local
    HTTP listener ([http.createServer]).  They are gathered in a [World]
    that every method receives and returns next to the instance itself;
    what the outside answers (replies of the endpoint, requests reaching the
    listener, random bytes) is a script carried by the world, so that every
    method is a function that can be run. *)

From stdpp Require Import base numbers strings list gmap pretty.

Local Open Scope string_scope.
Local Open Scope list_scope.
Local Open Scope Z_scope.

(** ** JavaScript truthiness of the values the class tests

    The class tests strings ([!code], [if (error)]) and possibly missing
    strings ([!this.tokenData?.refresh_token], [data.refresh_token || ...]).
    A string is falsy exactly when it is empty; [null] and [undefined]
    (here [None]) are falsy. *)

Definition truthy (s : string) : bool := negb (String.eqb s "").

Definition truthy_opt (o : option string) : bool :=
  match o with
  | Some s => truthy s
  | None => false
  end.

(** [a || b] on possibly missing strings. *)
Definition js_or (a b : option string) : option string :=
  if truthy_opt a then a else b.

(** ** Numbers

    The numbers of JavaScript are IEEE 754 doubles.  Those of this program
    are whole: times in milliseconds, lifetimes in seconds, durations.  The
    definitions below compute on them in [Z].  A whole number is a double,
    and a sum or a product of two of them is computed without rounding, as
    long as the operands and the result are safe integers
    ([Number.isSafeInteger]); beyond, the program rounds and [Z] does not.
    So the definitions are the program on safe integers, and what is stated
    below of the value a computation gives assumes them safe. *)

Definition MAX_SAFE_INTEGER : Z := 9007199254740991.

Definition safe_integer (n : Z) : Prop :=
  - MAX_SAFE_INTEGER <= n <= MAX_SAFE_INTEGER.


(** ** Constants of the module *)

Definition SPOTIFY_AUTH_URL : string := "https://accounts.spotify.com/authorize".
Definition SPOTIFY_TOKEN_URL : string := "https://accounts.spotify.com/api/token".
Definition REDIRECT_URI : string := "http://127.0.0.1:8888/callback".
Definition SCOPES : string := "user-library-read user-read-private user-read-email".

(** ** Data *)

(** [interface TokenData].  [refresh_token] is the one field whose absence
    the class itself provides for (the guard of [refreshAccessToken], the
    [||] of the refresh), so it is optional here: [None] is a record whose
    [refresh_token] is [undefined]. *)
Record TokenData := {
  access_token : string;
  refresh_token : option string;
  expires_at : Z;
  token_type : string;
  scope : string
}.

(** [response.data] of the token endpoint. *)
Record TokenResponse := {
  resp_access_token : string;
  resp_refresh_token : option string;
  resp_expires_in : Z;
  resp_token_type : string;
  resp_scope : string
}.

(** Everything the class throws, and everything thrown at it.  The class
    throws plain [Error]s told apart by their message ([message] below); the
    constructors bear the names the specification gives them.  The last four
    are thrown by [fs], [JSON.parse], [axios] and the runtime, and are all
    caught or impossible. *)
Inductive Error :=
  | NotAuthenticated
  | NoRefreshToken
  | RefreshFailed
  | AuthorizationDenied (reason : string)
  | CsrfMismatch
  | NoAuthorizationCode
  | CallbackTimeout
  | ExchangeFailed
  | FsError (code : string)
  | SyntaxError
  | AxiosError (status : option Z)
  | TypeError.

Definition message (e : Error) : string :=
  match e with
  | NotAuthenticated => "Not authenticated. Run the auth flow first."
  | NoRefreshToken => "No refresh token available. Run the auth flow first."
  | RefreshFailed => "Failed to refresh access token. Please re-authenticate."
  | AuthorizationDenied reason => "Authentication failed: " +:+ reason
  | CsrfMismatch => "State mismatch"
  | NoAuthorizationCode => "No authorization code"
  | CallbackTimeout => "Authentication timed out"
  | ExchangeFailed => "Failed to exchange authorization code for tokens"
  | FsError code => code
  | SyntaxError => "Unexpected token in JSON"
  | AxiosError _ => "Request failed"
  | TypeError => "Cannot read properties of null"
  end.

Definition isAxiosError (e : Error) : bool :=
  match e with
  | AxiosError _ => true
  | _ => false
  end.

Inductive Result (A : Type) :=
  | Ok (a : A)
  | Throw (e : Error).
Arguments Ok {A} a.
Arguments Throw {A} e.

(** ** The file system

    The text of a file is kept up to [JSON.parse]: either a text that
    [JSON.parse] rejects, or the text [JSON.stringify] gives for a value of
    type [TokenData | null], which is what [saveTokens] writes.  A text that
    parses to another value ([{}], a number, a record that lacks a field) is
    not among them; what [loadTokens] does with any JSON is
    [loadTokens_any], below the class. *)
Inductive Content :=
  | Garbled
  | Json (v : option TokenData).

Record File := {
  content : Content;
  readable : bool
}.

(** [read_only]: every write and every removal fails (a read-only mount, a
    directory without write permission). *)
Record FileSystem := {
  files : gmap string File;
  read_only : bool
}.

(** ** The token endpoint *)

Inductive Grant :=
  | AuthorizationCode (code : string) (redirect_uri : string)
  | RefreshToken (token : string).

(** One POST to [SPOTIFY_TOKEN_URL]: the form body and the two halves of the
    Basic credential. *)
Record TokenRequest := {
  grant : Grant;
  basic_id : string;
  basic_secret : string
}.

Inductive Answer :=
  | Success (data : TokenResponse)
  | HttpFailure (status : Z)
  | NetworkFailure.

(** A scripted reply: what the endpoint answers and how many milliseconds
    the round trip takes. *)
Record Reply := {
  latency : Z;
  answer : Answer
}.

(** ** The callback listener *)

(** A request as the handler sees it once [new URL(req.url, ...)] has
    parsed it: the path and the three query parameters it reads
    ([searchParams.get] gives [null] for a missing one). *)
Record HttpRequest := {
  pathname : string;
  q_code : option string;
  q_state : option string;
  q_error : option string
}.

Record AuthorizeUrl := {
  u_client_id : string;
  u_response_type : string;
  u_redirect_uri : string;
  u_state : string;
  u_scope : string
}.

(** What the class does to the outside, in the order it does it: the lines
    of [console.error] (without their line breaks and without the value
    printed after them), the authorization URL it prints, the requests to
    the token endpoint, and what it does with the listener and the promise
    of [waitForCallback]. *)
Inductive Event :=
  | Log (line : string)
  | LogUrl (url : AuthorizeUrl)
  | Post (rq : TokenRequest)
  | Listen (port : Z)
  | Respond (status : Z)
  | Close
  | Settle (outcome : Result string).

(** ** The world and the instance

    - [fs]: the file system;
    - [env]: [process.env];
    - [now]: what [Date.now()] returns, in milliseconds; time passes while
      the class waits for the endpoint or for the timer;
    - [endpoint]: what the token endpoint will answer to the next requests,
      in order;
    - [inbox]: the requests that will reach the listener before its timer
      fires, in order;
    - [rng], [drawn]: the bytes [crypto.randomBytes] will give, and how many
      were taken;
    - [listening]: whether the listener is bound to 127.0.0.1:8888 (the
      bind is taken to succeed);
    - [trace]: what the class has done to the outside so far. *)
Record World := {
  fs : FileSystem;
  env : gmap string string;
  now : Z;
  endpoint : list Reply;
  inbox : list HttpRequest;
  rng : nat -> Z;
  drawn : nat;
  listening : bool;
  trace : list Event
}.

Record SpotifyAuth := {
  clientId : string;
  clientSecret : string;
  tokenPath : string;
  tokenData : option TokenData
}.

Record Machine := {
  self : SpotifyAuth;
  world : World
}.

(** ** A state and exception monad

    A method is a function from the machine to a result and the machine
    after it; what a method did before it threw stays done. *)
Definition M (A : Type) : Type := Machine -> Result A * Machine.

Definition ret {A} (a : A) : M A := fun m => (Ok a, m).

Definition throw {A} (e : Error) : M A := fun m => (Throw e, m).

Definition bind {A B} (c : M A) (k : A -> M B) : M B :=
  fun m =>
    match c m with
    | (Ok a, m') => k a m'
    | (Throw e, m') => (Throw e, m')
    end.

Definition try_catch {A} (c : M A) (handler : Error -> M A) : M A :=
  fun m =>
    match c m with
    | (Ok a, m') => (Ok a, m')
    | (Throw e, m') => handler e m'
    end.

Declare Scope js_scope.
Delimit Scope js_scope with js.
Notation "'let!' x ':=' c 'in' k" := (bind c (fun x => k))
  (at level 10, x name, c at level 100, k at level 200) : js_scope.
Notation "c ';;;' k" := (bind c (fun _ => k))
  (at level 100, k at level 200, right associativity) : js_scope.
Local Open Scope js_scope.

Definition get_world : M World := fun m => (Ok (world m), m).

Definition set_world (w : World) : M unit :=
  fun m => (Ok tt, {| self := self m; world := w |}).

Definition this : M SpotifyAuth := fun m => (Ok (self m), m).

Definition set_tokenData (v : option TokenData) : M unit :=
  fun m =>
    (Ok tt,
     {| self := {| clientId := clientId (self m);
                   clientSecret := clientSecret (self m);
                   tokenPath := tokenPath (self m);
                   tokenData := v |};
        world := world m |}).

Definition emit (e : Event) : M unit :=
  fun m =>
    let w := world m in
    (Ok tt,
     {| self := self m;
        world := {| fs := fs w; env := env w; now := now w;
                    endpoint := endpoint w; inbox := inbox w;
                    rng := rng w; drawn := drawn w;
                    listening := listening w;
                    trace := trace w ++ [e] |} |}).

(** [console.error] *)
Definition console_error (line : string) : M unit := emit (Log line).

(** [Date.now()] *)
Definition Date_now : M Z := fun m => (Ok (now (world m)), m).

Definition set_fs (f : FileSystem) : M unit :=
  fun m =>
    let w := world m in
    (Ok tt,
     {| self := self m;
        world := {| fs := f; env := env w; now := now w;
                    endpoint := endpoint w; inbox := inbox w;
                    rng := rng w; drawn := drawn w;
                    listening := listening w;
                    trace := trace w |} |}).

(** ** [fs] *)

Definition existsSync (path : string) : M bool :=
  fun m =>
    (Ok match files (fs (world m)) !! path with
        | Some _ => true
        | None => false
        end, m).

Definition readFileSync (path : string) : M Content :=
  let! w := get_world in
  match files (fs w) !! path with
  | None => throw (FsError "ENOENT")
  | Some f => if readable f then ret (content f) else throw (FsError "EACCES")
  end.

(** A new file is readable; an overwritten one keeps its permissions. *)
Definition writeFileSync (path : string) (text : Content) : M unit :=
  let! w := get_world in
  if read_only (fs w) then throw (FsError "EROFS")
  else
    let keep := match files (fs w) !! path with
                | Some f => readable f
                | None => true
                end in
    set_fs {| files := <[path := {| content := text; readable := keep |}]> (files (fs w));
              read_only := read_only (fs w) |}.

Definition unlinkSync (path : string) : M unit :=
  let! w := get_world in
  match files (fs w) !! path with
  | None => throw (FsError "ENOENT")
  | Some _ =>
      if read_only (fs w) then throw (FsError "EROFS")
      else set_fs {| files := delete path (files (fs w));
                     read_only := read_only (fs w) |}
  end.

Definition JSON_parse (text : Content) : M (option TokenData) :=
  match text with
  | Garbled => throw SyntaxError
  | Json v => ret v
  end.

Definition JSON_stringify (v : option TokenData) : Content := Json v.

(** ** [axios.post(SPOTIFY_TOKEN_URL, ...)]

    The request is recorded, the next scripted reply is consumed and the
    clock moves by its latency.  [axios] throws on a status outside 2xx and
    when no answer comes; an exhausted script is an endpoint that cannot be
    reached. *)
Definition axios_post (rq : TokenRequest) : M TokenResponse :=
  emit (Post rq);;;
  let! w := get_world in
  match endpoint w with
  | [] => throw (AxiosError None)
  | reply :: rest =>
      set_world {| fs := fs w; env := env w; now := now w + latency reply;
                   endpoint := rest; inbox := inbox w;
                   rng := rng w; drawn := drawn w;
                   listening := listening w; trace := trace w |};;;
      match answer reply with
      | Success data => ret data
      | HttpFailure status => throw (AxiosError (Some status))
      | NetworkFailure => throw (AxiosError None)
      end
  end.

(** ** [crypto.randomBytes(n).toString("hex")] *)

Definition hex_digit (d : Z) : string :=
  String.substring (Z.to_nat d) 1 "0123456789abcdef".

Definition hex_byte (b : Z) : string := hex_digit (b / 16) +:+ hex_digit (b mod 16).

Definition to_hex (bytes : list Z) : string :=
  fold_right (fun b s => hex_byte b +:+ s) "" bytes.

Definition crypto_randomBytes (n : nat) : M (list Z) :=
  let! w := get_world in
  set_world {| fs := fs w; env := env w; now := now w;
               endpoint := endpoint w; inbox := inbox w;
               rng := rng w; drawn := (drawn w + n)%nat;
               listening := listening w; trace := trace w |};;;
  ret (map (fun i => rng w (drawn w + i)%nat mod 256) (seq 0 n)).

(** ** [http.Server] *)

Definition set_listening (b : bool) : M unit :=
  let! w := get_world in
  set_world {| fs := fs w; env := env w; now := now w;
               endpoint := endpoint w; inbox := inbox w;
               rng := rng w; drawn := drawn w;
               listening := b; trace := trace w |}.

Definition server_listen (port : Z) : M unit :=
  set_listening true;;; emit (Listen port).

Definition server_close : M unit :=
  set_listening false;;; emit Close.

(** [res.writeHead(status, ...); res.end(page)] *)
Definition respond (status : Z) : M unit := emit (Respond status).

(** The next request reaching the listener, if one does before the timer. *)
Definition next_request : M (option HttpRequest) :=
  let! w := get_world in
  match inbox w with
  | [] => ret None
  | rq :: rest =>
      set_world {| fs := fs w; env := env w; now := now w;
                   endpoint := endpoint w; inbox := rest;
                   rng := rng w; drawn := drawn w;
                   listening := listening w; trace := trace w |};;;
      ret (Some rq)
  end.

(** The timer of [setTimeout(..., 5 * 60 * 1000)] fires. *)
Definition timer_fires : M unit :=
  let! w := get_world in
  set_world {| fs := fs w; env := env w; now := now w + 5 * 60 * 1000;
               endpoint := endpoint w; inbox := inbox w;
               rng := rng w; drawn := drawn w;
               listening := listening w; trace := trace w |}.

(** [resolve(code)] and [reject(new Error(...))] of the promise of
    [waitForCallback]: the outcome is delivered to the [await]. *)
Definition resolve (code : string) : M string :=
  emit (Settle (Ok code));;; ret code.

Definition reject (e : Error) : M string :=
  emit (Settle (Throw e));;; throw e.

(** [a || d] where [d] is a string that is there. *)
Definition or_else (a : option string) (d : string) : string :=
  match a with
  | Some s => if truthy s then s else d
  | None => d
  end.

(** * class SpotifyAuth *)

Section Class.

(** [path.join] of Node, which the constructor applies to the home
    directory and the name of the token file. *)
Variable path_join : string -> string -> string.

(** [loadTokens] *)
Definition loadTokens : M unit :=
  try_catch
    (let! self := this in
     let! present := existsSync (tokenPath self) in
     if present then
       let! data := readFileSync (tokenPath self) in
       let! v := JSON_parse data in
       set_tokenData v
     else ret tt)
    (fun error =>
       console_error "Failed to load tokens:";;;
       set_tokenData None).

(** [constructor(clientId, clientSecret, tokenPath?)]; the field initialiser
    [tokenData = null] runs before the body. *)
Definition constructor (clientId clientSecret : string) (tokenPath : option string)
    (w : World) : Machine :=
  let homeDir := or_else (env w !! "HOME") (or_else (env w !! "USERPROFILE") ".") in
  snd (loadTokens
         {| self := {| clientId := clientId;
                       clientSecret := clientSecret;
                       tokenPath := or_else tokenPath
                                      (path_join homeDir ".spotify-mcp-tokens.json");
                       tokenData := None |};
            world := w |}).

(** [saveTokens] *)
Definition saveTokens : M unit :=
  try_catch
    (let! self := this in
     writeFileSync (tokenPath self) (JSON_stringify (tokenData self)))
    (fun error => console_error "Failed to save tokens:").

(** [generateState] *)
Definition generateState : M string :=
  let! bytes := crypto_randomBytes 16 in
  ret (to_hex bytes).

(** [hasValidTokens] *)
Definition hasValidTokens : M bool :=
  let! self := this in
  match tokenData self with
  | None => ret false
  | Some t =>
      let! now := Date_now in
      ret (expires_at t >? now + 60000)
  end.

(** [refreshAccessToken].  The expiry is computed in [Z]: see [safe_expiry]. *)
Definition refreshAccessToken : M unit :=
  let! self := this in
  match tokenData self with
  | Some t =>
      if truthy_opt (refresh_token t) then
        try_catch
          (let! data :=
             axios_post {| grant := RefreshToken (default "" (refresh_token t));
                           basic_id := clientId self;
                           basic_secret := clientSecret self |} in
           let! now := Date_now in
           set_tokenData
             (Some {| access_token := resp_access_token data;
                      refresh_token := js_or (resp_refresh_token data) (refresh_token t);
                      expires_at := now + resp_expires_in data * 1000;
                      token_type := resp_token_type data;
                      scope := resp_scope data |});;;
           saveTokens;;;
           console_error "Token refreshed successfully")
          (fun error =>
             console_error "Failed to refresh token:";;;
             throw RefreshFailed)
      else throw NoRefreshToken
  | None => throw NoRefreshToken
  end.

(** [getAccessToken] *)
Definition getAccessToken : M string :=
  let! self := this in
  match tokenData self with
  | None => throw NotAuthenticated
  | Some t =>
      let! now := Date_now in
      (if expires_at t <=? now + 60000 then refreshAccessToken else ret tt);;;
      let! self := this in
      match tokenData self with
      | Some t' => ret (access_token t')
      | None => throw TypeError
      end
  end.

(** The request handler given to [http.createServer].  It settles the
    promise for a request to [/callback] and leaves any other request
    unanswered, the promise pending: [otherwise] is the rest of the wait. *)
Definition handler (expectedState : string) (rq : HttpRequest)
    (otherwise : M string) : M string :=
  if String.eqb (pathname rq) "/callback" then
    if truthy_opt (q_error rq) then
      respond 400;;;
      server_close;;;
      reject (AuthorizationDenied (default "" (q_error rq)))
    else if negb (bool_decide (q_state rq = Some expectedState)) then
      respond 400;;;
      server_close;;;
      reject CsrfMismatch
    else if negb (truthy_opt (q_code rq)) then
      respond 400;;;
      server_close;;;
      reject NoAuthorizationCode
    else
      respond 200;;;
      server_close;;;
      resolve (default "" (q_code rq))
  else otherwise.

(** The life of the listener until the promise is settled: the requests
    that arrive before the timer are handled in turn, then the timer fires.
    [pending] is the requests still to arrive.  (The timer is never
    cancelled: after a settlement by the handler it still fires, closes the
    closed server again and rejects the settled promise, to no effect.) *)
Fixpoint serve (expectedState : string) (pending : list HttpRequest) : M string :=
  match pending with
  | [] =>
      timer_fires;;;
      server_close;;;
      reject CallbackTimeout
  | _ :: later =>
      let! arrived := next_request in
      match arrived with
      | Some rq => handler expectedState rq (serve expectedState later)
      | None => serve expectedState later
      end
  end.

(** [waitForCallback] *)
Definition waitForCallback (expectedState : string) : M string :=
  server_listen 8888;;;
  console_error "Callback server listening on http://127.0.0.1:8888/callback";;;
  let! w := get_world in
  serve expectedState (inbox w).

(** [exchangeCodeForTokens].  The expiry is computed in [Z]: see
    [safe_expiry]. *)
Definition exchangeCodeForTokens (code : string) : M unit :=
  try_catch
    (let! self := this in
     let! data :=
       axios_post {| grant := AuthorizationCode code REDIRECT_URI;
                     basic_id := clientId self;
                     basic_secret := clientSecret self |} in
     let! now := Date_now in
     set_tokenData
       (Some {| access_token := resp_access_token data;
                refresh_token := resp_refresh_token data;
                expires_at := now + resp_expires_in data * 1000;
                token_type := resp_token_type data;
                scope := resp_scope data |});;;
     saveTokens)
    (fun error =>
       (if isAxiosError error then console_error "Token exchange error:" else ret tt);;;
       throw ExchangeFailed).

(** [authenticate] *)
Definition authenticate : M unit :=
  let! state := generateState in
  let! self := this in
  console_error "=== Spotify Authentication ===";;;
  console_error "Please open this URL in your browser to authenticate:";;;
  emit (LogUrl {| u_client_id := clientId self;
                  u_response_type := "code";
                  u_redirect_uri := REDIRECT_URI;
                  u_state := state;
                  u_scope := SCOPES |});;;
  console_error "Waiting for authentication...";;;
  let! code := waitForCallback state in
  exchangeCodeForTokens code;;;
  console_error "Authentication successful! Tokens saved.".

(** [clearTokens] *)
Definition clearTokens : M unit :=
  set_tokenData None;;;
  try_catch
    (let! self := this in
     let! present := existsSync (tokenPath self) in
     if present then unlinkSync (tokenPath self) else ret tt)
    (fun error => console_error "Failed to clear tokens:").

End Class.

(** ** The token file as any JSON

    [loadTokens] assigns what [JSON.parse] returns without looking at it
    (l.57), and the type [TokenData | null] of the field is not checked when
    the program runs: a text that parses is held as the record, whatever it
    is.  Here the text of the file is any JSON, and [loadTokens] is written
    once more on it.  Numbers are the whole ones. *)
Local Unset Elimination Schemes.
Local Set Elimination Schemes.









(** * The users of the class *)

(** ** [SpotifyClient], in [services/spotifyClient.ts]

    The client is given either an access token or an instance of
    [SpotifyAuth], which it keeps by reference: what [getAccessToken] does
    to the instance is seen by the next call. *)
Record SpotifyClient := {
  tokenProvider : string + SpotifyAuth
}.

(** [getToken] *)
Definition getToken (c : SpotifyClient) (w : World)
    : Result string * (SpotifyClient * World) :=
  match tokenProvider c with
  | inl token => (Ok token, (c, w))
  | inr auth =>
      match getAccessToken {| self := auth; world := w |} with
      | (r, m) => (r, ({| tokenProvider := inr (self m) |}, world m))
      end
  end.

(** The request interceptor: the value of the [Authorization] header of a
    request to the API. *)
Definition authorization (c : SpotifyClient) (w : World)
    : Result string * (SpotifyClient * World) :=
  match getToken c w with
  | (Ok token, cw) => (Ok ("Bearer " +:+ token), cw)
  | (Throw e, cw) => (Throw e, cw)
  end.

(** ** The two scripts, [auth-cli.ts] and [index.ts]

    A script ends by [process.exit(code)] or by running to its end; what it
    wrote with [console.log] is kept apart from the world, line by line and
    without line breaks.  [env] is [process.env] once [dotenv/config] has
    read the [.env] file into it. *)
Record Ended := {
  exit_code : option Z;
  stdout : list string;
  final : World
}.

(** [console.error] of a script, outside any instance. *)
Definition stderr (line : string) (w : World) : World :=
  {| fs := fs w; env := env w; now := now w;
     endpoint := endpoint w; inbox := inbox w;
     rng := rng w; drawn := drawn w;
     listening := listening w;
     trace := trace w ++ [Log line] |}.

(** [main().catch(...)] of [auth-cli.ts]: the message of the error is
    printed and the process exits with 1. *)
Definition main_catch (out : list string) (e : Error) (m : Machine) : Ended :=
  {| exit_code := Some 1;
     stdout := out;
     final := stderr ("Error: " +:+ message e) (world m) |}.

Definition is_one_of (command : string) (names : list string) : bool :=
  existsb (String.eqb command) names.

(** The timer of [waitForCallback] (l.261-264) is never cleared, and
    [auth-cli.ts] does not call [process.exit] after a login that succeeded:
    the process stays until the timer has fired, five minutes after
    [started], the start of the wait.  The timer then closes the server,
    which is closed, and rejects the promise, which is settled: nothing is
    left of it but the time that has passed.  When the exchange took longer
    than that, the process ends with it. *)
Definition timer_runs_out (started : Z) (w : World) : World :=
  {| fs := fs w; env := env w;
     now := Z.max (now w) (started + 5 * 60 * 1000);
     endpoint := endpoint w; inbox := inbox w;
     rng := rng w; drawn := drawn w;
     listening := listening w;
     trace := trace w |}.

Section Scripts.

Variable path_join : string -> string -> string.

(** [auth-cli.ts]: the check of the credentials, then [main].  [argv] is
    [process.argv], whose first two entries are the interpreter and the
    script.  The usage text is kept by its first line.  [final] is the world
    the process leaves when it ends: at once for [process.exit] and for the
    commands that leave nothing pending, and once the timer of the wait has
    run out for a login that succeeded (the wait starts at the clock of the
    start of the command: nothing before it takes time). *)
Definition auth_cli (argv : list string) (w : World) : Ended :=
  let clientId := env w !! "SPOTIFY_CLIENT_ID" in
  let clientSecret := env w !! "SPOTIFY_CLIENT_SECRET" in
  if negb (truthy_opt clientId) || negb (truthy_opt clientSecret) then
    {| exit_code := Some 1;
       stdout := [];
       final :=
         stderr "Please ensure SPOTIFY_CLIENT_ID and SPOTIFY_CLIENT_SECRET are set."
           (stderr "ERROR: Missing Spotify credentials in .env file" w) |}
  else
    let args := drop 2 argv in
    let command := or_else (head args) "login" in
    let auth :=
      constructor path_join (default "" clientId) (default "" clientSecret) None w in
    if is_one_of command ["login"; "auth"] then
      match authenticate auth with
      | (Ok _, m) =>
          {| exit_code := None;
             stdout := ["Starting Spotify authentication...";
                        "Done! You can now run the MCP server."];
             final := timer_runs_out (now (world auth)) (world m) |}
      | (Throw e, m) => main_catch ["Starting Spotify authentication..."] e m
      end
    else if is_one_of command ["logout"; "clear"] then
      match clearTokens auth with
      | (Ok _, m) =>
          {| exit_code := None;
             stdout := ["Tokens cleared. You will need to re-authenticate."];
             final := world m |}
      | (Throw e, m) => main_catch [] e m
      end
    else if String.eqb command "status" then
      match hasValidTokens auth with
      | (Ok true, m) =>
          {| exit_code := None;
             stdout := ["Status: Authenticated"; "You have valid tokens stored."];
             final := world m |}
      | (Ok false, m) =>
          {| exit_code := None;
             stdout := ["Status: Not authenticated";
                        "Run 'npm run auth' to authenticate."];
             final := world m |}
      | (Throw e, m) => main_catch [] e m
      end
    else if String.eqb command "refresh" then
      match hasValidTokens auth with
      | (Ok false, m) =>
          {| exit_code := Some 1;
             stdout := [];
             final := stderr "No tokens to refresh. Run 'npm run auth' first." (world m) |}
      | (Ok true, m) =>
          match refreshAccessToken m with
          | (Ok _, m') =>
              {| exit_code := None;
                 stdout := ["Token refreshed successfully."];
                 final := world m' |}
          | (Throw e, m') => main_catch [] e m'
          end
      | (Throw e, m) => main_catch [] e m
      end
    else
      {| exit_code := None;
         stdout := ["Spotify MCP Server - Authentication CLI"];
         final := world auth |}.

(** [index.ts], up to the choice of the way to authenticate: the client
    the server is given, or [None] when the script exits with 1. *)
Definition server_startup (w : World) : option SpotifyClient * World :=
  let clientId := env w !! "SPOTIFY_CLIENT_ID" in
  let clientSecret := env w !! "SPOTIFY_CLIENT_SECRET" in
  let directAccessToken := env w !! "SPOTIFY_ACCESS_TOKEN" in
  if truthy_opt directAccessToken then
    (Some {| tokenProvider := inl (default "" directAccessToken) |},
     stderr "Using direct access token from environment" w)
  else if truthy_opt clientId && truthy_opt clientSecret then
    let auth :=
      constructor path_join (default "" clientId) (default "" clientSecret) None w in
    match hasValidTokens auth with
    | (Ok true, m) =>
        (Some {| tokenProvider := inr (self m) |},
         stderr "Using OAuth tokens with automatic refresh" (world m))
    | (_, m) =>
        (None,
         stderr "This will open a browser window to authenticate with Spotify."
           (stderr "Run: npm run auth"
              (stderr "ERROR: No valid tokens found. Please authenticate first."
                 (world m))))
    end
  else
    (None,
     stderr "Then run: npm run auth"
       (stderr "  SPOTIFY_CLIENT_SECRET=your_client_secret"
          (stderr "  SPOTIFY_CLIENT_ID=your_client_id"
             (stderr "Please ensure your .env file contains:"
                (stderr "ERROR: Missing Spotify credentials." w))))).

End Scripts.

(** ** [formatDuration], in [tools/episodesTools.ts]

    Durations are whole numbers of milliseconds.  On a [safe_integer] the
    divisions of the function are exact enough: the double [ms / 60000] is
    within 2^-16 of the quotient, which is at least 1/60000 below the next
    whole number, so that [Math.floor(ms / 60000)] is the floor of the
    quotient; [ms % 60000] is exact, and [toFixed(0)] rounds the exact
    thousandths.  Beyond, the program rounds and this function does not:
    what is stated of the minutes it prints assumes [safe_integer ms]. *)

(** [(n / 1000).toFixed(0)] for an integer [n]: the magnitude is rounded to
    the nearest integer, a half upwards, and a negative [n] gets its sign
    even when it rounds to zero. *)
Definition toFixed0_thousandths (n : Z) : string :=
  let rounded := (Z.abs n + 500) / 1000 in
  if n <? 0 then "-" +:+ pretty rounded else pretty rounded.

(** [parseInt] of such a string. *)
Definition parseInt_thousandths (n : Z) : Z :=
  let rounded := (Z.abs n + 500) / 1000 in
  if n <? 0 then - rounded else rounded.

(** [formatDuration]; [None] is [null] or [undefined], and [%] is the
    remainder of JavaScript, which has the sign of [ms]. *)
Definition formatDuration (ms : option Z) : string :=
  match ms with
  | None => "Unknown"
  | Some 0 => "Unknown"
  | Some ms =>
      let minutes := ms / 60000 in
      let rest := Z.rem ms 60000 in
      let seconds := toFixed0_thousandths rest in
      pretty minutes +:+ ":" +:+
        (if parseInt_thousandths rest <? 10 then "0" else "") +:+ seconds
  end.

(** * Observations *)

(** The requests sent to the token endpoint, oldest first. *)
Definition posts (tr : list Event) : list TokenRequest :=
  omap (fun e => match e with Post rq => Some rq | _ => None end) tr.

Definition sent (m : Machine) : list TokenRequest := posts (trace (world m)).

(** What the endpoint answers to the next request. *)
Definition next_answer (w : World) : Answer :=
  match endpoint w with
  | [] => NetworkFailure
  | reply :: _ => answer reply
  end.

Definition next_latency (w : World) : Z :=
  match endpoint w with
  | [] => 0
  | reply :: _ => latency reply
  end.

(** The request of a refresh. *)
Definition refresh_request (self : SpotifyAuth) (token : string) : TokenRequest :=
  {| grant := RefreshToken token;
     basic_id := clientId self;
     basic_secret := clientSecret self |}.

(** The record of the token file, as a new instance would load it. *)
Definition stored (path : string) (f : FileSystem) : option Content :=
  content <$> files f !! path.

(** The same instance in another world: what the instance would see had the
    outside changed since it was built. *)
Definition moved (m : Machine) (w : World) : Machine :=
  {| self := self m; world := w |}.

(** The five ways in which the wait for the callback ends. *)
Inductive terminal : Result string -> Prop :=
  | terminal_success code : terminal (Ok code)
  | terminal_denied reason : terminal (Throw (AuthorizationDenied reason))
  | terminal_mismatch : terminal (Throw CsrfMismatch)
  | terminal_no_code : terminal (Throw NoAuthorizationCode)
  | terminal_timeout : terminal (Throw CallbackTimeout).

Definition is_settle (e : Event) : bool :=
  match e with
  | Settle _ => true
  | _ => false
  end.

(** [authenticate], from the wait on: the state drawn and announced, then
    the wait, then the exchange. *)
Definition announce : M string :=
  let! state := generateState in
  let! self := this in
  console_error "=== Spotify Authentication ===";;;
  console_error "Please open this URL in your browser to authenticate:";;;
  emit (LogUrl {| u_client_id := clientId self;
                  u_response_type := "code";
                  u_redirect_uri := REDIRECT_URI;
                  u_state := state;
                  u_scope := SCOPES |});;;
  console_error "Waiting for authentication...";;;
  ret state.

Definition is_callback (rq : HttpRequest) : bool := String.eqb (pathname rq) "/callback".

(** The request of a code exchange. *)
Definition exchange_request (self : SpotifyAuth) (code : string) : TokenRequest :=
  {| grant := AuthorizationCode code REDIRECT_URI;
     basic_id := clientId self;
     basic_secret := clientSecret self |}.

(** What an instance is: its credentials and the path of its token file. *)
Definition same_identity (a b : SpotifyAuth) : Prop :=
  clientId a = clientId b /\
  clientSecret a = clientSecret b /\
  tokenPath a = tokenPath b.

(** The answers written to the browser, oldest first. *)
Definition responses (tr : list Event) : list Z :=
  omap (fun e => match e with Respond status => Some status | _ => None end) tr.

(** The first request for [/callback] among those that arrive. *)
Definition first_callback (pending : list HttpRequest) : option HttpRequest :=
  List.find is_callback pending.

Definition is_hex (c : Ascii.ascii) : bool :=
  existsb (Ascii.eqb c) (String.list_ascii_of_string "0123456789abcdef").

(** The machine once a request has been taken from the listener's queue,
    [later] being still to arrive. *)
Definition awaiting (later : list HttpRequest) (m : Machine) : Machine :=
  {| self := self m;
     world := {| fs := fs (world m); env := env (world m); now := now (world m);
                 endpoint := endpoint (world m); inbox := later;
                 rng := rng (world m); drawn := drawn (world m);
                 listening := listening (world m);
                 trace := trace (world m) |} |}.

(** Two machines that differ at most by what was logged, drawn or queued,
    and by the listener: the instance, the files, the endpoint, the clock,
    the requests sent and the answers written are the same. *)
Definition untouched (a b : Machine) : Prop :=
  self a = self b /\
  fs (world a) = fs (world b) /\
  env (world a) = env (world b) /\
  endpoint (world a) = endpoint (world b) /\
  now (world a) = now (world b) /\
  sent a = sent b /\
  responses (trace (world a)) = responses (trace (world b)).

Definition all_hex (s : string) : bool :=
  forallb is_hex (String.list_ascii_of_string s).

(** The credentials are in the environment. *)
Definition credentials (w : World) : Prop :=
  truthy_opt (env w !! "SPOTIFY_CLIENT_ID") = true /\
  truthy_opt (env w !! "SPOTIFY_CLIENT_SECRET") = true.

(** The instance the two scripts build. *)
Definition script_instance (path_join : string -> string -> string) (w : World) : Machine :=
  constructor path_join
    (default "" (env w !! "SPOTIFY_CLIENT_ID"))
    (default "" (env w !! "SPOTIFY_CLIENT_SECRET")) None w.

(** [process.argv] of [npm run auth <command>]. *)
Definition npm_run_auth (command : list string) : list string :=
  "node" :: "auth-cli.ts" :: command.

(** Seconds on two digits, as [formatDuration] pads them. *)
Definition two_digits (s : Z) : string :=
  (if s <? 10 then "0" else "") +:+ pretty s.



(** * Sample data *)

Definition record_A : TokenData :=
  {| access_token := "A"; refresh_token := Some "R";
     expires_at := 4600000; token_type := "Bearer";
     scope := "user-library-read" |}.

Definition token_file : string := "/home/u/.spotify-mcp-tokens.json".

Definition disk (v : Content) : FileSystem :=
  {| files := {[ token_file := {| content := v; readable := true |} ]};
     read_only := false |}.

Definition quiet (f : FileSystem) (clock : Z) (script : list Reply) : World :=
  {| fs := f; env := ∅; now := clock; endpoint := script; inbox := [];
     rng := fun i => Z.of_nat i; drawn := 0; listening := false; trace := [] |}.

Definition holding (v : option TokenData) (w : World) : Machine :=
  {| self := {| clientId := "id"; clientSecret := "secret";
                tokenPath := token_file; tokenData := v |};
     world := w |}.

Definition expiring (at_ : Z) : TokenData :=
  {| access_token := "A"; refresh_token := Some "R";
     expires_at := at_; token_type := "Bearer";
     scope := "user-library-read" |}.

Definition response_B : TokenResponse :=
  {| resp_access_token := "B"; resp_refresh_token := None;
     resp_expires_in := 3600; resp_token_type := "Bearer";
     resp_scope := "user-library-read" |}.

Definition answers (a : Answer) : list Reply := [{| latency := 120; answer := a |}].

(** The record of the end-to-end scenario, read at [now] and fifty
    milliseconds before its expiry. *)
Definition scenario (clock : Z) (script : list Reply) : Machine :=
  holding (Some record_A) (quiet (disk (Json (Some record_A))) clock script).

(** A record that is past the buffer and whose [refresh_token] is the empty
    string, with an endpoint that would answer. *)
Definition record_spent : TokenData :=
  {| access_token := "A"; refresh_token := Some "";
     expires_at := 1000000; token_type := "Bearer";
     scope := "user-library-read" |}.

Definition spent : Machine :=
  holding (Some record_spent)
    (quiet (disk (Json (Some record_spent))) 1000000 (answers (Success response_B))).

Definition response_empty : TokenResponse :=
  {| resp_access_token := "B"; resp_refresh_token := Some "";
     resp_expires_in := 3600; resp_token_type := "Bearer";
     resp_scope := "user-library-read" |}.


Definition posix_join (a b : string) : string := a +:+ "/" +:+ b.

Definition home : gmap string string := {[ "HOME" := "/home/u" ]}.

(** A fresh install, a token file without read permission, and one cut in
    the middle of a write. *)
Definition install (f : FileSystem) : World :=
  {| fs := f; env := home; now := 1000000; endpoint := []; inbox := [];
     rng := fun i => Z.of_nat i; drawn := 0; listening := false; trace := [] |}.


(** Two processes share the token file, as the server and the command line
    of the repository do: the server is started, then the command line is
    run with [logout]. *)
Definition shared_start : World := install (disk (Json (Some record_A))).

Definition server : Machine :=
  constructor posix_join "id" "secret" None shared_start.

Definition cli_logged_out : Machine :=
  snd (clearTokens (constructor posix_join "id" "secret" None (world server))).

Definition server_later : Machine := moved server (world cli_logged_out).

Definition locked (v : Content) : FileSystem :=
  {| files := {[ token_file := {| content := v; readable := true |} ]};
     read_only := true |}.

(** A forged redirect: the browser is sent to [/callback] with a code and a
    state that was not drawn, after a request for the icon of the page. *)
Definition forged : list HttpRequest :=
  [ {| pathname := "/favicon.ico"; q_code := None; q_state := None; q_error := None |};
    {| pathname := "/callback"; q_code := Some "stolen";
       q_state := Some "ffffffffffffffffffffffffffffffff"; q_error := None |} ].

Definition attacked : Machine :=
  holding (Some record_A)
    {| fs := disk (Json (Some record_A)); env := ∅; now := 1000000;
       endpoint := answers (Success response_B); inbox := forged;
       rng := fun i => Z.of_nat i; drawn := 0; listening := false; trace := [] |}.

(** The state drawn first in the sample worlds, whose random bytes are
    0, 1, 2, ... *)
Definition first_state : string := "000102030405060708090a0b0c0d0e0f".

Definition favicon : HttpRequest :=
  {| pathname := "/favicon.ico"; q_code := None; q_state := None; q_error := None |}.

(** The redirect of a consent given, of a consent refused (sent with a code
    and the state all the same), and of one that lost its code. *)
Definition granted : HttpRequest :=
  {| pathname := "/callback"; q_code := Some "code-1";
     q_state := Some first_state; q_error := None |}.

Definition refused : HttpRequest :=
  {| pathname := "/callback"; q_code := Some "code-1";
     q_state := Some first_state; q_error := Some "access_denied" |}.

Definition codeless : HttpRequest :=
  {| pathname := "/callback"; q_code := None;
     q_state := Some first_state; q_error := None |}.

(** An instance without a record, on a fresh install, to which [reqs]
    arrive and whose endpoint follows [script]. *)
Definition visited (reqs : list HttpRequest) (script : list Reply) : Machine :=
  holding None
    {| fs := {| files := ∅; read_only := false |}; env := ∅; now := 1000000;
       endpoint := script; inbox := reqs;
       rng := fun i => Z.of_nat i; drawn := 0; listening := false; trace := [] |}.

(** The environment of the scripts, with and without a token of its own. *)
Definition configured : gmap string string :=
  {[ "HOME" := "/home/u"; "SPOTIFY_CLIENT_ID" := "id";
     "SPOTIFY_CLIENT_SECRET" := "secret" ]}.

Definition shell (vars : gmap string string) (f : FileSystem) (clock : Z)
    (script : list Reply) : World :=
  {| fs := f; env := vars; now := clock; endpoint := script; inbox := [];
     rng := fun i => Z.of_nat i; drawn := 0; listening := false; trace := [] |}.



(** * Properties *)

Lemma truthy_nonempty (s : string) : truthy s = true <-> s <> "".
Proof.
  unfold truthy. rewrite negb_true_iff. apply String.eqb_neq.
Qed.

Lemma posts_app (a b : list Event) : posts (a ++ b) = posts a ++ posts b.
Proof. unfold posts. apply omap_app. Qed.

Lemma gtb_true (a b : Z) : (a >? b) = true <-> a > b.
Proof. rewrite Z.gtb_ltb, Z.ltb_lt. lia. Qed.

Lemma gtb_false (a b : Z) : (a >? b) = false <-> a <= b.
Proof. rewrite Z.gtb_ltb, Z.ltb_ge. lia. Qed.

(** Unfolds the monad and the primitives down to the machine. *)
Ltac unfold_prims :=
  unfold console_error, respond, resolve, reject, server_listen, server_close,
    set_listening, timer_fires, next_request, crypto_randomBytes, axios_post,
    JSON_parse, JSON_stringify, unlinkSync, writeFileSync, readFileSync,
    existsSync, set_fs, Date_now, emit, set_tokenData, this, set_world,
    get_world, try_catch, bind, throw, ret.

Ltac run := unfold_prims; cbn.

(** ** Validity *)

(** C2. [hasValidTokens] answers false when the instance holds no record or
    one with [expires_at <= now + 60000], and true otherwise; it changes
    nothing.  With the clock at 1000000 a record expiring at 1059999 is not
    valid and one expiring at 1060001 is. *)
Theorem hasValidTokens_buffer (m : Machine) :
  (tokenData (self m) = None -> hasValidTokens m = (Ok false, m)) /\
  (forall t, tokenData (self m) = Some t ->
     expires_at t <= now (world m) + 60000 -> hasValidTokens m = (Ok false, m)) /\
  (forall t, tokenData (self m) = Some t ->
     expires_at t > now (world m) + 60000 -> hasValidTokens m = (Ok true, m)) /\
  (forall t, tokenData (self m) = Some t -> now (world m) = 1000000 ->
     (expires_at t = 1059999 -> hasValidTokens m = (Ok false, m)) /\
     (expires_at t = 1060001 -> hasValidTokens m = (Ok true, m))).
Proof.
  assert (stale : forall t, tokenData (self m) = Some t ->
            expires_at t <= now (world m) + 60000 -> hasValidTokens m = (Ok false, m)).
  { intros t Ht Hle. unfold hasValidTokens. run. rewrite Ht.
    rewrite (proj2 (gtb_false _ _) Hle). reflexivity. }
  assert (fresh : forall t, tokenData (self m) = Some t ->
            expires_at t > now (world m) + 60000 -> hasValidTokens m = (Ok true, m)).
  { intros t Ht Hgt. unfold hasValidTokens. run. rewrite Ht.
    rewrite (proj2 (gtb_true _ _) Hgt). reflexivity. }
  split; [|split; [exact stale|split; [exact fresh|]]].
  - intros Hnone. unfold hasValidTokens. run. rewrite Hnone. reflexivity.
  - intros t Ht Hnow. split; intros Hexp.
    + apply (stale t Ht). lia.
    + apply (fresh t Ht). lia.
Qed.

(** The two records of the specification, one millisecond on either side
    of the buffer, and an instance without a record. *)
Lemma hasValidTokens_buffer_witness :
  fst (hasValidTokens (holding None (quiet (disk Garbled) 1000000 []))) = Ok false /\
  fst (hasValidTokens (holding (Some (expiring 1059999))
                         (quiet (disk Garbled) 1000000 []))) = Ok false /\
  fst (hasValidTokens (holding (Some (expiring 1060000))
                         (quiet (disk Garbled) 1000000 []))) = Ok false /\
  fst (hasValidTokens (holding (Some (expiring 1060001))
                         (quiet (disk Garbled) 1000000 []))) = Ok true.
Proof.
  split; [|split; [|split]].
  - rewrite (proj1 (hasValidTokens_buffer _)); reflexivity.
  - destruct (proj2 (proj2 (proj2 (hasValidTokens_buffer
        (holding (Some (expiring 1059999)) (quiet (disk Garbled) 1000000 [])))))
        (expiring 1059999) eq_refl eq_refl) as [Hbelow _].
    rewrite (Hbelow eq_refl). reflexivity.
  - rewrite (proj1 (proj2 (hasValidTokens_buffer _)) (expiring 1060000));
      [reflexivity|reflexivity|cbn; lia].
  - destruct (proj2 (proj2 (proj2 (hasValidTokens_buffer
        (holding (Some (expiring 1060001)) (quiet (disk Garbled) 1000000 [])))))
        (expiring 1060001) eq_refl eq_refl) as [_ Habove].
    rewrite (Habove eq_refl). reflexivity.
Defined.

(** ** Refresh *)

(** Without a usable [refresh_token] the guard throws and nothing happens. *)
Lemma refresh_guard (m : Machine) :
  truthy_opt (tokenData (self m) ≫= refresh_token) = false ->
  refreshAccessToken m = (Throw NoRefreshToken, m).
Proof.
  intros Hfalsy. unfold refreshAccessToken. run.
  destruct (tokenData (self m)) as [t|]; [|reflexivity].
  cbn in Hfalsy. rewrite Hfalsy. reflexivity.
Qed.

Section Refreshing.

(** An instance that holds a record with a usable [refresh_token]: the
    guard lets the refresh through and one request is sent. *)
Variables (m : Machine) (t : TokenData) (R : string).
Hypothesis held : tokenData (self m) = Some t.
Hypothesis token : refresh_token t = Some R.
Hypothesis usable : R <> "".

(** A refresh the endpoint answers: a new record in memory, handed to
    [saveTokens]. *)
Lemma refresh_succeeds (data : TokenResponse) :
  next_answer (world m) = Success data ->
  exists m',
    refreshAccessToken m = (Ok tt, m') /\
    tokenData (self m') =
      Some {| access_token := resp_access_token data;
              refresh_token := js_or (resp_refresh_token data) (Some R);
              expires_at := now (world m) + next_latency (world m)
                            + resp_expires_in data * 1000;
              token_type := resp_token_type data;
              scope := resp_scope data |} /\
    tokenPath (self m') = tokenPath (self m) /\
    sent m' = sent m ++ [refresh_request (self m) R] /\
    (read_only (fs (world m)) = false ->
       stored (tokenPath (self m)) (fs (world m')) =
         Some (Json (tokenData (self m')))) /\
    (read_only (fs (world m)) = true -> fs (world m') = fs (world m)).
Proof using held token usable.
  intros Hans. unfold next_answer, next_latency in *.
  destruct (endpoint (world m)) as [|[lat ans] rest] eqn:Hend; [discriminate|].
  cbn in Hans. subst ans.
  unfold refreshAccessToken, saveTokens. run. rewrite held. cbn. rewrite token. cbn.
  rewrite (proj2 (truthy_nonempty R) usable). cbn. rewrite Hend. cbn.
  destruct (read_only (fs (world m))) eqn:Hro; cbn.
  - eexists. split; [reflexivity|]. cbn.
    repeat split; try reflexivity.
    + unfold sent. cbn. rewrite !posts_app. cbn. rewrite !app_nil_r. reflexivity.
    + discriminate.
  - eexists. split; [reflexivity|]. cbn.
    repeat split; try reflexivity.
    + unfold sent. cbn. rewrite !posts_app. cbn. rewrite !app_nil_r. reflexivity.
    + intros _. unfold stored. cbn. rewrite lookup_insert_eq. reflexivity.
    + discriminate.
Qed.

(** A refresh the endpoint refuses, or that gets no answer: the instance
    and the file system as they were. *)
Lemma refresh_fails :
  (forall data, next_answer (world m) <> Success data) ->
  exists m',
    refreshAccessToken m = (Throw RefreshFailed, m') /\
    self m' = self m /\
    fs (world m') = fs (world m) /\
    sent m' = sent m ++ [refresh_request (self m) R] /\
    endpoint (world m') = tail (endpoint (world m)).
Proof using held token usable.
  intros Hans. unfold next_answer in Hans.
  unfold refreshAccessToken. run. rewrite held. cbn. rewrite token. cbn.
  rewrite (proj2 (truthy_nonempty R) usable). cbn.
  destruct (endpoint (world m)) as [|[lat ans] rest] eqn:Hend; cbn.
  - eexists. split; [reflexivity|]. cbn. repeat split.
    unfold sent. cbn. rewrite !posts_app. cbn. rewrite !app_nil_r. reflexivity.
  - cbn in Hans. destruct ans as [data|status|]; cbn.
    + exfalso. exact (Hans data eq_refl).
    + eexists. split; [reflexivity|]. cbn. repeat split.
      unfold sent. cbn. rewrite !posts_app. cbn. rewrite !app_nil_r. reflexivity.
    + eexists. split; [reflexivity|]. cbn. repeat split.
      unfold sent. cbn. rewrite !posts_app. cbn. rewrite !app_nil_r. reflexivity.
Qed.

End Refreshing.

(** What [getAccessToken] does with a record inside the buffer: one call of
    [refreshAccessToken], then the [access_token] of the record held after
    it. *)
Lemma getAccessToken_stale (m : Machine) (t : TokenData) :
  tokenData (self m) = Some t ->
  expires_at t <= now (world m) + 60000 ->
  getAccessToken m =
    match refreshAccessToken m with
    | (Ok _, m') =>
        match tokenData (self m') with
        | Some t' => (Ok (access_token t'), m')
        | None => (Throw TypeError, m')
        end
    | (Throw e, m') => (Throw e, m')
    end.
Proof.
  intros Ht Hle. unfold getAccessToken, bind, this, Date_now.
  cbv beta iota. rewrite Ht. cbv beta iota.
  rewrite (proj2 (Z.leb_le _ _) Hle).
  destruct (refreshAccessToken m) as [[[]|e] m']; [|reflexivity].
  destruct (tokenData (self m')); reflexivity.
Qed.

(** ** [getAccessToken] *)

(** C1, as stated, fails: a record inside the buffer whose [refresh_token]
    is empty is not refreshed at all, and no access token is returned; the
    guard of [refreshAccessToken] throws before any request. *)
Lemma getAccessToken_spent_record :
  tokenData (self spent) = Some record_spent /\
  expires_at record_spent <= now (world spent) + 60000 /\
  getAccessToken spent = (Throw NoRefreshToken, spent) /\
  sent (snd (getAccessToken spent)) = [].
Proof.
  split; [reflexivity|]. split; [cbn; lia|]. split; reflexivity.
Qed.

(** C1, amended.  [getAccessToken] fails with [NotAuthenticated] when the
    instance holds no record.  It returns the held [access_token], sending
    nothing and changing nothing, when [expires_at > now + 60000].  When
    [expires_at <= now + 60000] and the record has a non-empty
    [refresh_token], it sends exactly one request to the token endpoint: it
    returns the [access_token] of a successful response, and fails with
    [RefreshFailed] otherwise.  When [expires_at <= now + 60000] and the
    [refresh_token] is missing or empty it fails with [NoRefreshToken] and
    sends nothing. *)
Theorem getAccessToken_cases (m : Machine) :
  (tokenData (self m) = None ->
     getAccessToken m = (Throw NotAuthenticated, m)) /\
  (forall t, tokenData (self m) = Some t ->
     expires_at t > now (world m) + 60000 ->
     getAccessToken m = (Ok (access_token t), m)) /\
  (forall t R, tokenData (self m) = Some t ->
     expires_at t <= now (world m) + 60000 ->
     refresh_token t = Some R -> R <> "" ->
     exists r m',
       getAccessToken m = (r, m') /\
       sent m' = sent m ++ [refresh_request (self m) R] /\
       (forall data, next_answer (world m) = Success data ->
          r = Ok (resp_access_token data)) /\
       ((forall data, next_answer (world m) <> Success data) ->
          r = Throw RefreshFailed)) /\
  (forall t, tokenData (self m) = Some t ->
     expires_at t <= now (world m) + 60000 ->
     truthy_opt (refresh_token t) = false ->
     getAccessToken m = (Throw NoRefreshToken, m)).
Proof.
  repeat split.
  - intros Hnone. unfold getAccessToken, bind, this. cbv beta iota.
    rewrite Hnone. reflexivity.
  - intros t Ht Hgt. unfold getAccessToken, bind, this, Date_now, ret.
    cbv beta iota. rewrite Ht. cbv beta iota.
    rewrite (proj2 (Z.leb_gt _ _)) by lia. cbv beta iota. rewrite Ht. reflexivity.
  - intros t R Ht Hle HR Hne.
    rewrite (getAccessToken_stale m t Ht Hle).
    destruct (next_answer (world m)) as [data|status|] eqn:Hans.
    + destruct (refresh_succeeds m t R Ht HR Hne data Hans)
        as (m' & Hrun & Htd & _ & Hsent & _).
      rewrite Hrun, Htd. exists (Ok (resp_access_token data)), m'.
      repeat split; [exact Hsent| |].
      * intros data' Heq. congruence.
      * intros Hno. exfalso. exact (Hno data eq_refl).
    + destruct (refresh_fails m t R Ht HR Hne) as (m' & Hrun & _ & _ & Hsent & _).
      { rewrite Hans. discriminate. }
      rewrite Hrun. exists (Throw RefreshFailed), m'.
      repeat split; [exact Hsent|]. intros data' Heq. discriminate.
    + destruct (refresh_fails m t R Ht HR Hne) as (m' & Hrun & _ & _ & Hsent & _).
      { rewrite Hans. discriminate. }
      rewrite Hrun. exists (Throw RefreshFailed), m'.
      repeat split; [exact Hsent|]. intros data' Heq. discriminate.
  - intros t Ht Hle Hfalsy.
    rewrite (getAccessToken_stale m t Ht Hle).
    rewrite refresh_guard; [reflexivity|]. rewrite Ht. exact Hfalsy.
Qed.

(** The end-to-end scenario of the specification: the record read an hour
    before its expiry, then fifty milliseconds before it. *)
Lemma getAccessToken_cases_witness :
  getAccessToken (holding None (quiet (disk Garbled) 1000000 [])) =
    (Throw NotAuthenticated, holding None (quiet (disk Garbled) 1000000 [])) /\
  getAccessToken (scenario 1000000 (answers (Success response_B))) =
    (Ok "A", scenario 1000000 (answers (Success response_B))) /\
  (exists r m',
     getAccessToken (scenario 4599950 (answers (Success response_B))) = (r, m') /\
     sent m' = [refresh_request (self (scenario 4599950 [])) "R"] /\
     r = Ok "B") /\
  getAccessToken spent = (Throw NoRefreshToken, spent).
Proof.
  split.
  { apply (proj1 (getAccessToken_cases _)). reflexivity. }
  split.
  { apply (proj1 (proj2 (getAccessToken_cases _)) record_A); [reflexivity|cbn; lia]. }
  split.
  { destruct (proj1 (proj2 (proj2
      (getAccessToken_cases (scenario 4599950 (answers (Success response_B))))))
      record_A "R" eq_refl) as (r & m' & Hrun & Hsent & Hok & _);
      [cbn; lia|reflexivity|discriminate|].
    exists r, m'. split; [exact Hrun|]. split; [exact Hsent|].
    apply (Hok response_B). reflexivity. }
  apply (proj2 (proj2 (proj2 (getAccessToken_cases _))) record_spent);
    [reflexivity|cbn; lia|reflexivity].
Defined.

(** ** The record built by a refresh *)




(** ** A refresh that fails *)

(** C5. When the token endpoint answers a refresh with an HTTP error, or
    does not answer, [refreshAccessToken] fails with [RefreshFailed]; the
    record held by the instance and the file system are what they were, and
    exactly one request was sent: the record is not deleted and the refresh
    is not tried again. *)
Theorem refresh_failure_keeps_record (m : Machine) (t : TokenData) (R : string) :
  tokenData (self m) = Some t ->
  refresh_token t = Some R ->
  R <> "" ->
  (exists status, next_answer (world m) = HttpFailure status) \/
    next_answer (world m) = NetworkFailure ->
  exists m',
    refreshAccessToken m = (Throw RefreshFailed, m') /\
    tokenData (self m') = Some t /\
    fs (world m') = fs (world m) /\
    stored (tokenPath (self m)) (fs (world m')) =
      stored (tokenPath (self m)) (fs (world m)) /\
    sent m' = sent m ++ [refresh_request (self m) R] /\
    endpoint (world m') = tail (endpoint (world m)).
Proof.
  intros Ht HR Hne Hfail.
  assert (Hno : forall data, next_answer (world m) <> Success data).
  { intros data Heq. destruct Hfail as [[status Hs]|Hn]; congruence. }
  destruct (refresh_fails m t R Ht HR Hne Hno)
    as (m' & Hrun & Hself & Hfs & Hsent & Hscript).
  exists m'. split; [exact Hrun|]. rewrite Hself, Hfs.
  repeat split; [exact Ht|exact Hsent|exact Hscript].
Qed.

(** The endpoint answers 400 ([invalid_grant]), then is unreachable. *)
Lemma refresh_failure_keeps_record_witness :
  (exists m',
     refreshAccessToken (scenario 4599950 (answers (HttpFailure 400))) =
       (Throw RefreshFailed, m') /\
     tokenData (self m') = Some record_A /\
     stored token_file (fs (world m')) = Some (Json (Some record_A)) /\
     length (sent m') = 1%nat) /\
  (exists m',
     refreshAccessToken (scenario 4599950 []) = (Throw RefreshFailed, m') /\
     tokenData (self m') = Some record_A).
Proof.
  split.
  - destruct (refresh_failure_keeps_record (scenario 4599950 (answers (HttpFailure 400)))
                record_A "R" eq_refl eq_refl)
      as (m' & Hrun & Htd & _ & Hdisk & Hsent & _);
      [discriminate|left; exists 400; reflexivity|].
    exists m'. repeat split; [exact Hrun|exact Htd| |rewrite Hsent; reflexivity].
    etransitivity; [exact Hdisk|reflexivity].
  - destruct (refresh_failure_keeps_record (scenario 4599950 [])
                record_A "R" eq_refl eq_refl)
      as (m' & Hrun & Htd & _);
      [discriminate|right; reflexivity|].
    exists m'. split; [exact Hrun|exact Htd].
Defined.

(** ** A refresh without a record *)

(** C10. An instance that holds no record fails a refresh with the error
    of the guard, "No refresh token available. Run the auth flow first.",
    which is not the error of [getAccessToken] on such an instance; a record
    without [refresh_token] takes the same branch; nothing is sent and
    nothing changes. *)
Theorem refresh_without_record (m : Machine) :
  tokenData (self m) = None ->
  refreshAccessToken m = (Throw NoRefreshToken, m) /\
  message NoRefreshToken = "No refresh token available. Run the auth flow first." /\
  NoRefreshToken <> NotAuthenticated /\
  fst (getAccessToken m) = Throw NotAuthenticated /\
  sent (snd (refreshAccessToken m)) = sent m /\
  (forall t, refresh_token t = None ->
     fst (refreshAccessToken (snd (set_tokenData (Some t) m))) =
       fst (refreshAccessToken m)).
Proof.
  intros Hnone.
  assert (Hrun : refreshAccessToken m = (Throw NoRefreshToken, m)).
  { apply refresh_guard. rewrite Hnone. reflexivity. }
  rewrite Hrun. repeat split; [discriminate| |].
  - unfold getAccessToken, bind, this. cbv beta iota. rewrite Hnone. reflexivity.
  - intros t Hbare. rewrite refresh_guard; [reflexivity|].
    cbn. rewrite Hbare. reflexivity.
Qed.

Lemma refresh_without_record_witness :
  refreshAccessToken (holding None (quiet (disk Garbled) 0 (answers (Success response_B)))) =
    (Throw NoRefreshToken,
     holding None (quiet (disk Garbled) 0 (answers (Success response_B)))).
Proof.
  apply (refresh_without_record
           (holding None (quiet (disk Garbled) 0 (answers (Success response_B))))).
  reflexivity.
Defined.

(** ** Loading the token file *)


(** The record a new instance holds, from the state of its token file. *)
Lemma constructor_loads (path_join : string -> string -> string)
    (id secret : string) (path : option string) (w : World) :
  let m := constructor path_join id secret path w in
  tokenPath (self m) =
    or_else path
      (path_join (or_else (env w !! "HOME") (or_else (env w !! "USERPROFILE") "."))
                 ".spotify-mcp-tokens.json") /\
  tokenData (self m) =
    match files (fs w) !! tokenPath (self m) with
    | Some {| content := Json v; readable := true |} => v
    | _ => None
    end /\
  fs (world m) = fs w /\
  now (world m) = now w.
Proof.
  unfold constructor, loadTokens. run.
  set (p := or_else path _).
  destruct (files (fs w) !! p) as [[text can_read]|] eqn:Hfile;
    cbn; rewrite ?Hfile; cbn.
  - destruct can_read; cbn; rewrite ?Hfile; cbn.
    + destruct text; cbn; rewrite ?Hfile; cbn; repeat split.
    + destruct text; repeat split.
  - repeat split.
Qed.





(** ** What [hasValidTokens] looks at *)

(** C7, as stated, fails: after the other process has logged out, the
    store is absent (an instance built at that moment holds nothing and is
    not valid), and the server's [hasValidTokens] still answers true. *)
Lemma hasValidTokens_ignores_the_store :
  stored (tokenPath (self server_later)) (fs (world server_later)) = None /\
  tokenData (self (constructor posix_join "id" "secret" None (world server_later))) = None /\
  fst (hasValidTokens (constructor posix_join "id" "secret" None (world server_later)))
    = Ok false /\
  fst (hasValidTokens server_later) = Ok true.
Proof.
  repeat split; reflexivity.
Qed.

(** C7, amended.  [hasValidTokens] answers true iff the record the instance
    holds in memory satisfies [expires_at > now + 60000]; it reads the
    clock and nothing else: it leaves the machine as it is and its answer is
    the same whatever the file system holds.  The record in memory is the
    one loaded when the instance was built, so for an instance just built
    the answer is that of the token file at that moment. *)
Theorem hasValidTokens_reads_memory (m : Machine) :
  (exists b, hasValidTokens m = (Ok b, m) /\
             (b = true <->
              exists t, tokenData (self m) = Some t /\
                        expires_at t > now (world m) + 60000)) /\
  (forall f, fst (hasValidTokens (snd (set_fs f m))) = fst (hasValidTokens m)) /\
  (forall path_join id secret path w,
     let m0 := constructor path_join id secret path w in
     fst (hasValidTokens m0) = Ok true <->
     exists t, files (fs w) !! tokenPath (self m0) =
                 Some {| content := Json (Some t); readable := true |} /\
               expires_at t > now w + 60000).
Proof.
  assert (Hmem : forall m : Machine,
            hasValidTokens m =
              (Ok match tokenData (self m) with
                  | Some t => expires_at t >? now (world m) + 60000
                  | None => false
                  end, m)).
  { intros m1. unfold hasValidTokens, bind, this, Date_now, ret. cbv beta iota.
    destruct (tokenData (self m1)); reflexivity. }
  split; [|split].
  - eexists. split; [apply Hmem|].
    destruct (tokenData (self m)) as [t|].
    + rewrite gtb_true. split.
      * intros Hgt. exists t. split; [reflexivity|exact Hgt].
      * intros (t' & Heq & Hgt). congruence.
    + split; [discriminate|]. intros (t' & Heq & _). discriminate.
  - intros f. rewrite !Hmem. reflexivity.
  - intros path_join id secret path w m0. rewrite Hmem.
    destruct (constructor_loads path_join id secret path w) as (_ & Htd & _ & Hnow).
    fold m0 in Htd, Hnow. rewrite Htd, Hnow.
    destruct (files (fs w) !! tokenPath (self m0)) as [[text can_read]|].
    + destruct text as [|[t|]], can_read; cbn.
      all: try (split; [discriminate|];
                intros (t' & Heq & _); discriminate).
      split.
      * intros Hgt. exists t. split; [reflexivity|].
        apply gtb_true. congruence.
      * intros (t' & Heq & Hgt). f_equal. apply gtb_true. congruence.
    + split; [discriminate|]. intros (t' & Heq & _). discriminate.
Qed.

(** The server of the counterexample, and the instance built an hour before
    the expiry of the stored record. *)
Lemma hasValidTokens_reads_memory_witness :
  (exists t, tokenData (self server_later) = Some t /\
             expires_at t > now (world server_later) + 60000) /\
  fst (hasValidTokens server) = Ok true.
Proof.
  split.
  - destruct (proj1 (hasValidTokens_reads_memory server_later)) as (b & Hrun & Hiff).
    apply Hiff.
    assert (Hb : fst (hasValidTokens server_later) = Ok b) by (rewrite Hrun; reflexivity).
    vm_compute in Hb. congruence.
  - apply (proj2 (proj2 (hasValidTokens_reads_memory server))
             posix_join "id" "secret" None shared_start).
    exists record_A. split; [reflexivity|cbn; lia].
Defined.

(** ** Logout *)

(** C9, as stated, fails: when the token file cannot be removed,
    [clearTokens] logs the failure and returns; the record is still in the
    store, after one call and after two. *)
Lemma logout_keeps_locked_file :
  let m := holding (Some record_A) (quiet (locked (Json (Some record_A))) 1000000 []) in
  fst (clearTokens m) = Ok tt /\
  stored token_file (fs (world (snd (clearTokens m)))) = Some (Json (Some record_A)) /\
  stored token_file (fs (world (snd (clearTokens (snd (clearTokens m))))))
    = Some (Json (Some record_A)).
Proof.
  cbn zeta. repeat split; reflexivity.
Qed.

(** What one call of [clearTokens] does. *)
Lemma clearTokens_once (m : Machine) :
  exists m',
    clearTokens m = (Ok tt, m') /\
    self m' = self (snd (set_tokenData None m)) /\
    read_only (fs (world m')) = read_only (fs (world m)) /\
    (stored (tokenPath (self m)) (fs (world m)) = None -> world m' = world m) /\
    (read_only (fs (world m)) = false ->
       stored (tokenPath (self m)) (fs (world m')) = None) /\
    (read_only (fs (world m)) = true -> fs (world m') = fs (world m)).
Proof.
  destruct m as [[id secret path td] w]. unfold clearTokens, stored. run.
  destruct (files (fs w) !! path) as [f|] eqn:Hfile; cbn; rewrite ?Hfile; cbn.
  - destruct (read_only (fs w)) eqn:Hro; cbn.
    + eexists. split; [reflexivity|]. cbn.
      repeat split; try discriminate; auto.
    + eexists. split; [reflexivity|]. cbn.
      repeat split; try discriminate; auto.
      rewrite lookup_delete_eq. reflexivity.
  - eexists. split; [reflexivity|]. cbn.
    repeat split; try discriminate; auto.
    rewrite Hfile. reflexivity.
Qed.

(** C9, amended.  [clearTokens] never throws and always drops the record
    held in memory; a second call in a row does the same and changes neither
    the instance nor the file system again.  The token file is gone after
    the first call, and still gone after the second, whenever it was not
    there to begin with or its removal succeeds (when the removal fails, the
    failure is logged and the file stays). *)
Theorem logout_idempotent (m : Machine) :
  exists m1 m2,
    clearTokens m = (Ok tt, m1) /\
    clearTokens m1 = (Ok tt, m2) /\
    tokenData (self m1) = None /\
    tokenData (self m2) = None /\
    self m2 = self m1 /\
    fs (world m2) = fs (world m1) /\
    (read_only (fs (world m)) = false \/
     stored (tokenPath (self m)) (fs (world m)) = None ->
     stored (tokenPath (self m)) (fs (world m1)) = None /\
     stored (tokenPath (self m)) (fs (world m2)) = None).
Proof.
  destruct (clearTokens_once m) as (m1 & Hrun1 & Hself1 & Hro1 & Hgone1 & Hrm1 & Hkeep1).
  destruct (clearTokens_once m1) as (m2 & Hrun2 & Hself2 & Hro2 & Hgone2 & Hrm2 & Hkeep2).
  assert (Hpath : tokenPath (self m1) = tokenPath (self m)) by (rewrite Hself1; reflexivity).
  assert (Hsame : self m2 = self m1).
  { rewrite Hself2. cbn. rewrite Hself1. reflexivity. }
  assert (Hfs : fs (world m2) = fs (world m1)).
  { destruct (read_only (fs (world m))) eqn:Hro.
    - apply Hkeep2. rewrite Hro1. reflexivity.
    - rewrite Hgone2; [reflexivity|]. rewrite Hpath. apply Hrm1. reflexivity. }
  exists m1, m2. split; [exact Hrun1|]. split; [exact Hrun2|].
  split; [rewrite Hself1; reflexivity|]. split; [rewrite Hsame, Hself1; reflexivity|].
  split; [exact Hsame|]. split; [exact Hfs|].
  intros Hcan. rewrite Hfs.
  assert (Hgone : stored (tokenPath (self m)) (fs (world m1)) = None).
  { destruct Hcan as [Hrw|Habsent].
    - apply Hrm1. exact Hrw.
    - rewrite (Hgone1 Habsent). exact Habsent. }
  split; exact Hgone.
Qed.

(** A store with a record, a store emptied by a first logout, and a fresh
    install: no error and no file in each. *)
Lemma logout_idempotent_witness :
  (exists m1 m2,
     clearTokens (scenario 1000000 []) = (Ok tt, m1) /\
     clearTokens m1 = (Ok tt, m2) /\
     tokenData (self m2) = None /\
     stored token_file (fs (world m1)) = None /\
     stored token_file (fs (world m2)) = None) /\
  (exists m1 m2,
     clearTokens (holding None (quiet {| files := ∅; read_only := false |} 0 []))
       = (Ok tt, m1) /\
     clearTokens m1 = (Ok tt, m2) /\
     stored token_file (fs (world m2)) = None).
Proof.
  split.
  - destruct (logout_idempotent (scenario 1000000 []))
      as (m1 & m2 & Hrun1 & Hrun2 & _ & Hnone & _ & _ & Hgone).
    destruct Hgone as [Hg1 Hg2]; [left; reflexivity|].
    exists m1, m2. repeat split; assumption.
  - destruct (logout_idempotent
                (holding None (quiet {| files := ∅; read_only := false |} 0 [])))
      as (m1 & m2 & Hrun1 & Hrun2 & _ & _ & _ & _ & Hgone).
    destruct Hgone as [_ Hg2]; [right; reflexivity|].
    exists m1, m2. repeat split; assumption.
Defined.

(** ** The callback listener *)

(** The wait ends, whatever arrives, and it ends closed: the last thing
    done before the outcome is delivered is [server.close()]. *)
Lemma serve_closes (expectedState : string) (pending : list HttpRequest) (m : Machine) :
  exists r m' before,
    serve expectedState pending m = (r, m') /\
    terminal r /\
    trace (world m') = trace (world m) ++ before ++ [Close; Settle r] /\
    forallb (fun e => negb (is_settle e)) before = true /\
    listening (world m') = false /\
    self m' = self m /\
    fs (world m') = fs (world m) /\
    endpoint (world m') = endpoint (world m).
Proof.
  revert m. induction pending as [|first later IH]; intros m.
  - cbn [serve]. run.
    eexists _, _, []. split; [reflexivity|]. cbn.
    split; [constructor|]. rewrite <- app_assoc. repeat split.
  - cbn [serve]. unfold next_request, get_world, set_world, bind, ret.
    cbv beta iota.
    destruct (inbox (world m)) as [|rq rest] eqn:Hinbox; cbv beta iota.
    + apply IH.
    + unfold handler.
      destruct (String.eqb (pathname rq) "/callback").
      * destruct (truthy_opt (q_error rq)); [|
          destruct (negb (bool_decide (q_state rq = Some expectedState))); [|
            destruct (negb (truthy_opt (q_code rq)))]];
          run; eexists _, _, [Respond _];
          (split; [reflexivity|]); cbn;
          (split; [constructor|]); rewrite <- !app_assoc; repeat split.
      * match goal with
        | |- context [serve expectedState later ?m1] =>
            destruct (IH m1) as (r & m' & before & Hrun & Hterm & Htrace & Hpure & Hrest)
        end.
        exists r, m', before. split; [exact Hrun|]. split; [exact Hterm|].
        split; [exact Htrace|]. split; [exact Hpure|]. exact Hrest.
Qed.

(** The exchange does not touch the listener. *)
Lemma exchange_keeps_listener (code : string) (m : Machine) :
  listening (world (snd (exchangeCodeForTokens code m))) = listening (world m).
Proof.
  unfold exchangeCodeForTokens, saveTokens. run.
  destruct (endpoint (world m)) as [|[lat ans] rest]; cbn; [reflexivity|].
  destruct ans; cbn; [|reflexivity..].
  destruct (read_only (fs (world m))); reflexivity.
Qed.

Lemma authenticate_steps (m : Machine) :
  exists S m0,
    announce m = (Ok S, m0) /\
    fst (generateState m) = Ok S /\
    self m0 = self m /\
    fs (world m0) = fs (world m) /\
    inbox (world m0) = inbox (world m) /\
    endpoint (world m0) = endpoint (world m) /\
    sent m0 = sent m /\
    authenticate m =
      match waitForCallback S m0 with
      | (Ok code, m1) =>
          match exchangeCodeForTokens code m1 with
          | (Ok _, m2) => console_error "Authentication successful! Tokens saved." m2
          | (Throw e, m2) => (Throw e, m2)
          end
      | (Throw e, m1) => (Throw e, m1)
      end.
Proof.
  unfold announce, authenticate, generateState. unfold_prims.
  cbn -[waitForCallback exchangeCodeForTokens to_hex].
  eexists _, _. split; [reflexivity|].
  split; [reflexivity|]. cbn -[waitForCallback exchangeCodeForTokens to_hex].
  do 4 (split; [reflexivity|]).
  split.
  - unfold sent. cbn. rewrite !posts_app. cbn. rewrite !app_nil_r. reflexivity.
  - match goal with
    | |- context [waitForCallback ?s ?m1] => destruct (waitForCallback s m1) as [[code|e] m2]
    end; [|reflexivity].
    destruct (exchangeCodeForTokens code m2) as [[[]|e] m3]; reflexivity.
Qed.

(** C6. The wait for the callback always ends, in one of five ways: the
    code, an error parameter, a state mismatch, a missing code, the timer.
    In each, [server.close()] is the last thing done before the outcome is
    delivered, nothing was delivered before, and the listener is no longer
    bound; it is not bound either when [authenticate] returns or throws. *)
Theorem listener_closed_on_every_path (expectedState : string) (m : Machine) :
  (exists r m' before,
     waitForCallback expectedState m = (r, m') /\
     terminal r /\
     trace (world m') =
       trace (world m) ++ Listen 8888 :: before ++ [Close; Settle r] /\
     forallb (fun e => negb (is_settle e)) before = true /\
     listening (world m') = false) /\
  listening (world (snd (authenticate m))) = false.
Proof.
  assert (Hwait : forall S m0, listening (world (snd (waitForCallback S m0))) = false).
  { intros S m0. unfold waitForCallback. run.
    match goal with
    | |- context [serve S ?l ?m1] =>
        destruct (serve_closes S l m1) as (r & m' & before & Hrun & _ & _ & _ & Hclosed & _)
    end.
    rewrite Hrun. exact Hclosed. }
  split.
  - unfold waitForCallback. run.
    match goal with
    | |- context [serve expectedState ?l ?m1] =>
        destruct (serve_closes expectedState l m1)
          as (r & m' & before & Hrun & Hterm & Htrace & Hpure & Hclosed & _)
    end.
    rewrite Hrun. eexists r, m', (Log _ :: before).
    split; [reflexivity|]. split; [exact Hterm|].
    split; [|split; [exact Hpure|exact Hclosed]].
    rewrite Htrace. cbn. rewrite <- !app_assoc. reflexivity.
  - destruct (authenticate_steps m) as (S & m0 & _ & _ & _ & _ & _ & _ & _ & Hauth).
    rewrite Hauth. specialize (Hwait S m0).
    destruct (waitForCallback S m0) as [[code|e] m1]; cbn in Hwait; [|exact Hwait].
    pose proof (exchange_keeps_listener code m1) as Hex.
    destruct (exchangeCodeForTokens code m1) as [[[]|e] m2]; cbn in Hex.
    + run. congruence.
    + cbn. congruence.
Qed.

(** ** The state check *)

(** The handler on a callback without error parameter whose [state] is not
    the expected one. *)
Lemma handler_mismatch (expectedState : string) (rq : HttpRequest)
    (otherwise : M string) (m : Machine) :
  is_callback rq = true ->
  truthy_opt (q_error rq) = false ->
  q_state rq <> Some expectedState ->
  exists m',
    handler expectedState rq otherwise m = (Throw CsrfMismatch, m') /\
    self m' = self m /\
    fs (world m') = fs (world m) /\
    sent m' = sent m /\
    endpoint (world m') = endpoint (world m) /\
    listening (world m') = false.
Proof.
  intros Hpath Herr Hstate. unfold handler. unfold is_callback in Hpath.
  rewrite Hpath, Herr. rewrite bool_decide_false by exact Hstate.
  run. eexists. split; [reflexivity|]. cbn.
  repeat split. unfold sent. cbn. rewrite !posts_app. cbn. rewrite !app_nil_r. reflexivity.
Qed.

(** Requests for other paths are passed over. *)
Lemma serve_skips (expectedState : string) (others : list HttpRequest)
    (rq : HttpRequest) (later : list HttpRequest) (m : Machine) :
  forallb (fun r => negb (is_callback r)) others = true ->
  inbox (world m) = others ++ rq :: later ->
  exists m0,
    serve expectedState (others ++ rq :: later) m =
      handler expectedState rq (serve expectedState later) m0 /\
    self m0 = self m /\
    fs (world m0) = fs (world m) /\
    sent m0 = sent m /\
    endpoint (world m0) = endpoint (world m).
Proof.
  revert m. induction others as [|other others IH]; intros m Hothers Hinbox.
  - cbn [app serve]. unfold next_request, get_world, set_world, bind, ret.
    cbv beta iota. rewrite Hinbox. cbn [app]. cbv beta iota.
    eexists. split; [reflexivity|]. repeat split.
  - cbn [forallb] in Hothers. apply andb_prop in Hothers as [Hother Hothers].
    cbn [app serve]. unfold next_request, get_world, set_world, bind, ret.
    cbv beta iota. rewrite Hinbox. cbn [app]. cbv beta iota.
    unfold handler at 1. unfold is_callback in Hother.
    apply negb_true_iff in Hother. rewrite Hother.
    match goal with
    | |- context [serve expectedState _ ?m1] =>
        destruct (IH m1 Hothers eq_refl) as (m0 & Hrun & Hrest)
    end.
    exists m0. split; [exact Hrun|]. exact Hrest.
Qed.

(** C4. Let [authenticate] draw the state [S], and let the first request
    that reaches [/callback] carry no error parameter (or an empty one) and
    a [state] that is not [S], or none.  Then [authenticate] fails with
    [CsrfMismatch] ("State mismatch"); the exchange is not reached: no
    request has been sent to the token endpoint, the record held by the
    instance and the file system are what they were, and the listener is
    closed. *)
Theorem csrf_mismatch_aborts (m : Machine) (S : string)
    (others later : list HttpRequest) (rq : HttpRequest) :
  fst (generateState m) = Ok S ->
  inbox (world m) = others ++ rq :: later ->
  forallb (fun r => negb (is_callback r)) others = true ->
  is_callback rq = true ->
  truthy_opt (q_error rq) = false ->
  q_state rq <> Some S ->
  exists m',
    authenticate m = (Throw CsrfMismatch, m') /\
    message CsrfMismatch = "State mismatch" /\
    sent m' = sent m /\
    endpoint (world m') = endpoint (world m) /\
    tokenData (self m') = tokenData (self m) /\
    fs (world m') = fs (world m) /\
    listening (world m') = false.
Proof.
  intros HS Hinbox Hothers Hpath Herr Hstate.
  destruct (authenticate_steps m)
    as (S' & m0 & _ & HS' & Hself0 & Hfs0 & Hinbox0 & Hend0 & Hsent0 & Hauth).
  assert (S' = S) by congruence. subst S'.
  rewrite Hauth. unfold waitForCallback. unfold_prims.
  cbn -[serve].
  match goal with
  | |- context [serve S _ ?m1] => set (listener := m1)
  end.
  assert (Hpending : inbox (world m0) = others ++ rq :: later) by congruence.
  destruct (serve_skips S others rq later listener Hothers Hpending)
    as (m2 & Hrun & Hself2 & Hfs2 & Hsent2 & Hend2).
  rewrite Hpending, Hrun.
  destruct (handler_mismatch S rq (serve S later) m2 Hpath Herr Hstate)
    as (m' & Hrun' & Hself' & Hfs' & Hsent' & Hend' & Hclosed).
  rewrite Hrun'. exists m'. split; [reflexivity|]. split; [reflexivity|].
  split.
  { rewrite Hsent', Hsent2. unfold sent. cbn. rewrite !posts_app. cbn.
    rewrite !app_nil_r. exact Hsent0. }
  split.
  { rewrite Hend', Hend2. cbn. exact Hend0. }
  split.
  { rewrite Hself', Hself2. cbn. rewrite Hself0. reflexivity. }
  split; [|exact Hclosed].
  rewrite Hfs', Hfs2. cbn. exact Hfs0.
Qed.

Lemma csrf_mismatch_aborts_witness :
  exists m',
    authenticate attacked = (Throw CsrfMismatch, m') /\
    sent m' = [] /\
    tokenData (self m') = Some record_A /\
    fs (world m') = disk (Json (Some record_A)).
Proof.
  destruct (csrf_mismatch_aborts attacked "000102030405060708090a0b0c0d0e0f"
              [ {| pathname := "/favicon.ico"; q_code := None; q_state := None;
                   q_error := None |} ]
              []
              {| pathname := "/callback"; q_code := Some "stolen";
                 q_state := Some "ffffffffffffffffffffffffffffffff"; q_error := None |})
    as (m' & Hrun & _ & Hsent & _ & Htd & Hfs & _).
  - vm_compute. reflexivity.
  - reflexivity.
  - reflexivity.
  - reflexivity.
  - reflexivity.
  - discriminate.
  - exists m'. split; [exact Hrun|]. split; [exact Hsent|]. split; [exact Htd|exact Hfs].
Defined.

(** * Further properties of the class *)

(** ** The exchange of the code *)


(** An exchange the endpoint refuses, or that gets no answer. *)
Lemma exchange_fails (code : string) (m : Machine) :
  (forall data, next_answer (world m) <> Success data) ->
  exists m',
    exchangeCodeForTokens code m = (Throw ExchangeFailed, m') /\
    self m' = self m /\
    fs (world m') = fs (world m) /\
    sent m' = sent m ++ [exchange_request (self m) code].
Proof.
  intros Hans. unfold next_answer in Hans.
  unfold exchangeCodeForTokens. run.
  destruct (endpoint (world m)) as [|[lat ans] rest] eqn:Hend; cbn.
  - eexists. split; [reflexivity|]. cbn. repeat split.
    unfold sent. cbn. rewrite !posts_app. cbn. rewrite ?app_nil_r. reflexivity.
  - cbn in Hans. destruct ans as [data|status|]; cbn.
    + exfalso. exact (Hans data eq_refl).
    + eexists. split; [reflexivity|]. cbn. repeat split.
      unfold sent. cbn. rewrite !posts_app. cbn. rewrite ?app_nil_r. reflexivity.
    + eexists. split; [reflexivity|]. cbn. repeat split.
      unfold sent. cbn. rewrite !posts_app. cbn. rewrite ?app_nil_r. reflexivity.
Qed.

(** ** The listener, request by request *)

Lemma responses_app (a b : list Event) : responses (a ++ b) = responses a ++ responses b.
Proof. unfold responses. apply omap_app. Qed.

Lemma untouched_trans (a b c : Machine) : untouched a b -> untouched b c -> untouched a c.
Proof.
  unfold untouched. intros (?&?&?&?&?&?&?) (?&?&?&?&?&?&?).
  repeat split; congruence.
Qed.

(** Requests for other paths are taken from the queue and left there. *)
Lemma serve_reaches (expectedState : string) (others : list HttpRequest)
    (rq : HttpRequest) (later : list HttpRequest) (m : Machine) :
  forallb (fun r => negb (is_callback r)) others = true ->
  inbox (world m) = others ++ rq :: later ->
  serve expectedState (others ++ rq :: later) m =
    handler expectedState rq (serve expectedState later) (awaiting later m).
Proof.
  revert m. induction others as [|other others IH]; intros m Hothers Hinbox.
  - cbn [app serve]. unfold next_request, get_world, set_world, bind, ret.
    cbv beta iota. rewrite Hinbox. reflexivity.
  - cbn [forallb] in Hothers. apply andb_prop in Hothers as [Hother Hothers].
    cbn [app serve]. unfold next_request, get_world, set_world, bind, ret.
    cbv beta iota. rewrite Hinbox. cbn [app]. cbv beta iota.
    unfold handler at 1. unfold is_callback in Hother.
    apply negb_true_iff in Hother. rewrite Hother.
    match goal with
    | |- serve expectedState _ ?m1 = _ => rewrite (IH m1 Hothers eq_refl)
    end.
    reflexivity.
Qed.

(** When no request for [/callback] arrives, the timer ends the wait. *)
Lemma serve_times_out (expectedState : string) (pending : list HttpRequest) (m : Machine) :
  forallb (fun r => negb (is_callback r)) pending = true ->
  inbox (world m) = pending ->
  exists m',
    serve expectedState pending m = (Throw CallbackTimeout, m') /\
    self m' = self m /\
    fs (world m') = fs (world m) /\
    env (world m') = env (world m) /\
    endpoint (world m') = endpoint (world m) /\
    now (world m') = now (world m) + 300000 /\
    sent m' = sent m /\
    responses (trace (world m')) = responses (trace (world m)) /\
    listening (world m') = false.
Proof.
  revert m. induction pending as [|other pending IH]; intros m Hothers Hinbox.
  - cbn [serve]. run. eexists. split; [reflexivity|]. cbn.
    repeat split.
    + unfold sent. cbn. rewrite !posts_app. cbn. rewrite ?app_nil_r. reflexivity.
    + rewrite !responses_app. cbn. rewrite ?app_nil_r. reflexivity.
  - cbn [forallb] in Hothers. apply andb_prop in Hothers as [Hother Hothers].
    cbn [serve]. unfold next_request, get_world, set_world, bind, ret.
    cbv beta iota. rewrite Hinbox. cbv beta iota.
    unfold handler. unfold is_callback in Hother.
    apply negb_true_iff in Hother. rewrite Hother.
    match goal with
    | |- context [serve expectedState pending ?m1] =>
        destruct (IH m1 Hothers eq_refl) as (m' & Hrun & Hrest)
    end.
    exists m'. split; [exact Hrun|]. exact Hrest.
Qed.

(** The handler on a callback that carries an error parameter. *)
Lemma handler_denied (expectedState : string) (rq : HttpRequest) (reason : string)
    (otherwise : M string) (m : Machine) :
  is_callback rq = true ->
  q_error rq = Some reason ->
  reason <> "" ->
  exists m',
    handler expectedState rq otherwise m = (Throw (AuthorizationDenied reason), m') /\
    self m' = self m /\
    fs (world m') = fs (world m) /\
    env (world m') = env (world m) /\
    endpoint (world m') = endpoint (world m) /\
    now (world m') = now (world m) /\
    sent m' = sent m /\
    responses (trace (world m')) = responses (trace (world m)) ++ [400] /\
    listening (world m') = false.
Proof.
  intros Hpath Herr Hne. unfold handler. unfold is_callback in Hpath.
  rewrite Hpath, Herr. cbn [truthy_opt]. rewrite (proj2 (truthy_nonempty reason) Hne).
  run. eexists. split; [reflexivity|]. cbn.
  repeat split.
  - unfold sent. cbn. rewrite !posts_app. cbn. rewrite ?app_nil_r. reflexivity.
  - rewrite !responses_app. cbn. rewrite ?app_nil_r. reflexivity.
Qed.

(** The handler on a callback with the expected state and no code. *)
Lemma handler_no_code (expectedState : string) (rq : HttpRequest)
    (otherwise : M string) (m : Machine) :
  is_callback rq = true ->
  truthy_opt (q_error rq) = false ->
  q_state rq = Some expectedState ->
  truthy_opt (q_code rq) = false ->
  exists m',
    handler expectedState rq otherwise m = (Throw NoAuthorizationCode, m') /\
    self m' = self m /\
    fs (world m') = fs (world m) /\
    env (world m') = env (world m) /\
    endpoint (world m') = endpoint (world m) /\
    now (world m') = now (world m) /\
    sent m' = sent m /\
    responses (trace (world m')) = responses (trace (world m)) ++ [400] /\
    listening (world m') = false.
Proof.
  intros Hpath Herr Hstate Hcode. unfold handler. unfold is_callback in Hpath.
  rewrite Hpath, Herr, Hcode. rewrite bool_decide_true by exact Hstate.
  run. eexists. split; [reflexivity|]. cbn.
  repeat split.
  - unfold sent. cbn. rewrite !posts_app. cbn. rewrite ?app_nil_r. reflexivity.
  - rewrite !responses_app. cbn. rewrite ?app_nil_r. reflexivity.
Qed.

(** The handler on the callback the flow waits for. *)
Lemma handler_accepts (expectedState : string) (rq : HttpRequest) (code : string)
    (otherwise : M string) (m : Machine) :
  is_callback rq = true ->
  truthy_opt (q_error rq) = false ->
  q_state rq = Some expectedState ->
  q_code rq = Some code ->
  code <> "" ->
  exists m',
    handler expectedState rq otherwise m = (Ok code, m') /\
    self m' = self m /\
    fs (world m') = fs (world m) /\
    env (world m') = env (world m) /\
    endpoint (world m') = endpoint (world m) /\
    now (world m') = now (world m) /\
    sent m' = sent m /\
    responses (trace (world m')) = responses (trace (world m)) ++ [200] /\
    listening (world m') = false.
Proof.
  intros Hpath Herr Hstate Hcode Hne. unfold handler. unfold is_callback in Hpath.
  rewrite Hpath, Herr, Hcode. rewrite bool_decide_true by exact Hstate.
  cbn [truthy_opt]. rewrite (proj2 (truthy_nonempty code) Hne).
  run. eexists. split; [reflexivity|]. cbn.
  repeat split.
  - unfold sent. cbn. rewrite !posts_app. cbn. rewrite ?app_nil_r. reflexivity.
  - rewrite !responses_app. cbn. rewrite ?app_nil_r. reflexivity.
Qed.

(** ** [authenticate], from the first callback on *)

(** Drawing and announcing the state touches nothing. *)
Lemma announce_untouched (m : Machine) :
  untouched (snd (announce m)) m /\
  inbox (world (snd (announce m))) = inbox (world m).
Proof.
  unfold announce, generateState. unfold_prims. cbn -[to_hex].
  split; [|reflexivity]. unfold untouched. cbn.
  do 5 (split; [reflexivity|]). split.
  - unfold sent. cbn. rewrite !posts_app. cbn. rewrite ?app_nil_r. reflexivity.
  - rewrite !responses_app. cbn. rewrite ?app_nil_r. reflexivity.
Qed.

(** Binding the listener touches nothing either. *)
Lemma listen_untouched (m : Machine) :
  untouched
    (snd ((server_listen 8888;;;
           console_error "Callback server listening on http://127.0.0.1:8888/callback") m))
    m.
Proof.
  unfold_prims. cbn. unfold untouched. cbn.
  do 5 (split; [reflexivity|]). split.
  - unfold sent. cbn. rewrite !posts_app. cbn. rewrite ?app_nil_r. reflexivity.
  - rewrite !responses_app. cbn. rewrite ?app_nil_r. reflexivity.
Qed.

(** [authenticate] up to the life of the listener. *)
Lemma authenticate_serves (m : Machine) :
  exists S m1,
    fst (generateState m) = Ok S /\
    untouched m1 m /\
    inbox (world m1) = inbox (world m) /\
    authenticate m =
      match serve S (inbox (world m)) m1 with
      | (Ok code, m2) =>
          match exchangeCodeForTokens code m2 with
          | (Ok _, m3) => console_error "Authentication successful! Tokens saved." m3
          | (Throw e, m3) => (Throw e, m3)
          end
      | (Throw e, m2) => (Throw e, m2)
      end.
Proof.
  destruct (authenticate_steps m)
    as (S & m0 & Hann & HS & _ & _ & Hinbox & _ & _ & Hauth).
  destruct (announce_untouched m) as [Hsame _].
  rewrite Hann in Hsame. cbn [snd] in Hsame.
  exists S.
  exists (snd ((server_listen 8888;;;
                console_error "Callback server listening on http://127.0.0.1:8888/callback")
                 m0)).
  split; [exact HS|].
  split; [exact (untouched_trans _ _ _ (listen_untouched m0) Hsame)|].
  split; [unfold_prims; cbn; exact Hinbox|].
  rewrite Hauth, <- Hinbox. unfold waitForCallback.
  unfold bind at 2 4. unfold get_world.
  unfold_prims. cbn -[serve exchangeCodeForTokens]. reflexivity.
Qed.

(** X1. When the first request for [/callback] carries a non-empty error
    parameter, [authenticate] fails with "Authentication failed: " followed
    by that parameter, whatever the state and the code of the request are:
    the error is looked at first.  The browser is answered 400, nothing is
    sent to the token endpoint, and the record held and the files are what
    they were. *)
Theorem authenticate_denied (m : Machine) (others later : list HttpRequest)
    (rq : HttpRequest) (reason : string) :
  inbox (world m) = others ++ rq :: later ->
  forallb (fun r => negb (is_callback r)) others = true ->
  is_callback rq = true ->
  q_error rq = Some reason ->
  reason <> "" ->
  exists m',
    authenticate m = (Throw (AuthorizationDenied reason), m') /\
    message (AuthorizationDenied reason) = "Authentication failed: " +:+ reason /\
    self m' = self m /\
    fs (world m') = fs (world m) /\
    sent m' = sent m /\
    responses (trace (world m')) = responses (trace (world m)) ++ [400] /\
    listening (world m') = false.
Proof.
  intros Hinbox Hothers Hpath Herr Hne.
  destruct (authenticate_serves m) as (S & m1 & _ & Hsame & Hinbox1 & Hauth).
  rewrite Hauth, Hinbox.
  rewrite (serve_reaches S others rq later m1 Hothers) by congruence.
  destruct (handler_denied S rq reason (serve S later) (awaiting later m1) Hpath Herr Hne)
    as (m' & Hrun & Hself & Hfs & _ & _ & _ & Hsent & Hresp & Hclosed).
  destruct Hsame as (Hself1 & Hfs1 & _ & _ & _ & Hsent1 & Hresp1).
  rewrite Hrun. exists m'. split; [reflexivity|]. split; [reflexivity|].
  split; [rewrite Hself; exact Hself1|].
  split; [rewrite Hfs; exact Hfs1|].
  split; [rewrite Hsent; exact Hsent1|].
  split; [|exact Hclosed].
  rewrite Hresp. cbn [awaiting world trace]. rewrite Hresp1. reflexivity.
Qed.

(** X2. When the first request for [/callback] has the state that was
    drawn, no error parameter and no code (or an empty one), [authenticate]
    fails with "No authorization code"; the browser is answered 400, nothing
    is sent to the token endpoint and the record held and the files are what
    they were. *)
Theorem authenticate_without_code (m : Machine) (S : string)
    (others later : list HttpRequest) (rq : HttpRequest) :
  fst (generateState m) = Ok S ->
  inbox (world m) = others ++ rq :: later ->
  forallb (fun r => negb (is_callback r)) others = true ->
  is_callback rq = true ->
  truthy_opt (q_error rq) = false ->
  q_state rq = Some S ->
  truthy_opt (q_code rq) = false ->
  exists m',
    authenticate m = (Throw NoAuthorizationCode, m') /\
    self m' = self m /\
    fs (world m') = fs (world m) /\
    sent m' = sent m /\
    responses (trace (world m')) = responses (trace (world m)) ++ [400] /\
    listening (world m') = false.
Proof.
  intros HS Hinbox Hothers Hpath Herr Hstate Hcode.
  destruct (authenticate_serves m) as (S' & m1 & HS' & Hsame & Hinbox1 & Hauth).
  assert (S' = S) by congruence. subst S'.
  rewrite Hauth, Hinbox.
  rewrite (serve_reaches S others rq later m1 Hothers) by congruence.
  destruct (handler_no_code S rq (serve S later) (awaiting later m1)
              Hpath Herr Hstate Hcode)
    as (m' & Hrun & Hself & Hfs & _ & _ & _ & Hsent & Hresp & Hclosed).
  destruct Hsame as (Hself1 & Hfs1 & _ & _ & _ & Hsent1 & Hresp1).
  rewrite Hrun. exists m'. split; [reflexivity|].
  split; [rewrite Hself; exact Hself1|].
  split; [rewrite Hfs; exact Hfs1|].
  split; [rewrite Hsent; exact Hsent1|].
  split; [|exact Hclosed].
  rewrite Hresp. cbn [awaiting world trace]. rewrite Hresp1. reflexivity.
Qed.

(** X3. When no request for [/callback] arrives before the timer, whatever
    else is requested, [authenticate] fails with "Authentication timed out"
    five minutes later; no request was answered, nothing was sent to the
    token endpoint, and the record held and the files are what they
    were. *)
Theorem authenticate_times_out (m : Machine) :
  forallb (fun r => negb (is_callback r)) (inbox (world m)) = true ->
  exists m',
    authenticate m = (Throw CallbackTimeout, m') /\
    message CallbackTimeout = "Authentication timed out" /\
    now (world m') = now (world m) + 5 * 60 * 1000 /\
    self m' = self m /\
    fs (world m') = fs (world m) /\
    sent m' = sent m /\
    responses (trace (world m')) = responses (trace (world m)) /\
    listening (world m') = false.
Proof.
  intros Hothers.
  destruct (authenticate_serves m) as (S & m1 & _ & Hsame & Hinbox1 & Hauth).
  rewrite Hauth.
  destruct (serve_times_out S (inbox (world m)) m1 Hothers Hinbox1)
    as (m' & Hrun & Hself & Hfs & _ & _ & Hnow & Hsent & Hresp & Hclosed).
  destruct Hsame as (Hself1 & Hfs1 & _ & _ & Hnow1 & Hsent1 & Hresp1).
  rewrite Hrun. exists m'. split; [reflexivity|]. split; [reflexivity|].
  split; [rewrite Hnow, Hnow1; reflexivity|].
  split; [congruence|]. split; [congruence|]. split; [congruence|].
  split; [congruence|exact Hclosed].
Qed.


(** The exchange writes nothing to the browser. *)
Lemma exchange_keeps_responses (code : string) (m : Machine) :
  responses (trace (world (snd (exchangeCodeForTokens code m)))) =
    responses (trace (world m)).
Proof.
  unfold exchangeCodeForTokens, saveTokens. run.
  destruct (endpoint (world m)) as [|[lat ans] rest]; cbn.
  - rewrite !responses_app. cbn. rewrite ?app_nil_r. reflexivity.
  - destruct ans; cbn.
    + destruct (read_only (fs (world m))); cbn;
        rewrite !responses_app; cbn; rewrite ?app_nil_r; reflexivity.
    + rewrite !responses_app. cbn. rewrite ?app_nil_r. reflexivity.
    + rewrite !responses_app. cbn. rewrite ?app_nil_r. reflexivity.
Qed.

(** X5. When the callback is the one the flow waits for and the token
    endpoint then refuses the exchange or does not answer, [authenticate]
    fails with "Failed to exchange authorization code for tokens" although
    the browser has already been answered 200; one request was sent, and the
    record held and the files are what they were. *)
Theorem authenticate_exchange_fails (m : Machine) (S code : string)
    (others later : list HttpRequest) (rq : HttpRequest) :
  fst (generateState m) = Ok S ->
  inbox (world m) = others ++ rq :: later ->
  forallb (fun r => negb (is_callback r)) others = true ->
  is_callback rq = true ->
  truthy_opt (q_error rq) = false ->
  q_state rq = Some S ->
  q_code rq = Some code ->
  code <> "" ->
  (exists status, next_answer (world m) = HttpFailure status) \/
    next_answer (world m) = NetworkFailure ->
  exists m',
    authenticate m = (Throw ExchangeFailed, m') /\
    message ExchangeFailed = "Failed to exchange authorization code for tokens" /\
    responses (trace (world m')) = responses (trace (world m)) ++ [200] /\
    sent m' = sent m ++ [exchange_request (self m) code] /\
    self m' = self m /\
    fs (world m') = fs (world m) /\
    listening (world m') = false.
Proof.
  intros HS Hinbox Hothers Hpath Herr Hstate Hcode Hne Hfail.
  destruct (authenticate_serves m) as (S' & m1 & HS' & Hsame & Hinbox1 & Hauth).
  assert (S' = S) by congruence. subst S'.
  rewrite Hauth, Hinbox.
  rewrite (serve_reaches S others rq later m1 Hothers) by congruence.
  destruct (handler_accepts S rq code (serve S later) (awaiting later m1)
              Hpath Herr Hstate Hcode Hne)
    as (m2 & Hrun & Hself & Hfs & _ & Hend & _ & Hsent & Hresp & Hclosed).
  destruct Hsame as (Hself1 & Hfs1 & _ & Hend1 & _ & Hsent1 & Hresp1).
  cbn [awaiting world self fs endpoint now trace] in Hself, Hfs, Hend, Hresp.
  assert (Hsent2 : sent m2 = sent m) by (rewrite Hsent; exact Hsent1).
  assert (Hno : forall data, next_answer (world m2) <> Success data).
  { intros data. unfold next_answer in *. rewrite Hend, Hend1.
    destruct Hfail as [[status Hs]|Hn]; congruence. }
  rewrite Hrun.
  pose proof (exchange_keeps_responses code m2) as Hresp3.
  pose proof (exchange_keeps_listener code m2) as Hclosed3.
  destruct (exchange_fails code m2 Hno) as (m3 & Hrun3 & Hself3 & Hfs3 & Hsent3).
  rewrite Hrun3 in *. cbn [snd] in Hresp3, Hclosed3.
  exists m3. split; [reflexivity|]. split; [reflexivity|].
  split; [rewrite Hresp3, Hresp, Hresp1; reflexivity|].
  split; [rewrite Hsent3, Hsent2, Hself, Hself1; reflexivity|].
  split; [congruence|]. split; [congruence|]. congruence.
Qed.

(** ** Which request decides, and what the browser is told *)

Lemma find_callback_split (pending : list HttpRequest) :
  match first_callback pending with
  | Some rq =>
      exists others later,
        pending = others ++ rq :: later /\
        forallb (fun r => negb (is_callback r)) others = true /\
        is_callback rq = true
  | None => forallb (fun r => negb (is_callback r)) pending = true
  end.
Proof.
  unfold first_callback. induction pending as [|r pending IH]; [reflexivity|].
  cbn [List.find]. destruct (is_callback r) eqn:Hr.
  - exists [], pending. repeat split. exact Hr.
  - destruct (List.find is_callback pending) as [rq|].
    + destruct IH as (others & later & -> & Hothers & Hrq).
      exists (r :: others), later. repeat split; [|exact Hrq].
      cbn [forallb]. rewrite Hr, Hothers. reflexivity.
    + cbn [forallb]. rewrite Hr, IH. reflexivity.
Qed.

(** What the handler decides on a callback depends on the request and on
    the expected state only. *)
Lemma handler_verdict (expectedState : string) (rq : HttpRequest)
    (k k' : M string) (m m' : Machine) :
  is_callback rq = true ->
  fst (handler expectedState rq k m) = fst (handler expectedState rq k' m').
Proof.
  intros Hpath. unfold handler. unfold is_callback in Hpath. rewrite Hpath.
  destruct (truthy_opt (q_error rq)); [reflexivity|].
  destruct (negb (bool_decide (q_state rq = Some expectedState))); [reflexivity|].
  destruct (negb (truthy_opt (q_code rq))); reflexivity.
Qed.

(** The listening machine of [waitForCallback]. *)
Lemma waitForCallback_serves (expectedState : string) (m : Machine) :
  exists m1,
    waitForCallback expectedState m = serve expectedState (inbox (world m)) m1 /\
    inbox (world m1) = inbox (world m) /\
    untouched m1 m.
Proof.
  exists (snd ((server_listen 8888;;;
                console_error "Callback server listening on http://127.0.0.1:8888/callback")
                 m)).
  split; [|split; [reflexivity|apply listen_untouched]].
  unfold waitForCallback. unfold_prims. reflexivity.
Qed.

(** X6. The outcome of the wait for the callback is that of the first
    request for [/callback]: requests for other paths, and whatever arrives
    after that first request, do not change it; it is the same as if that
    request had been the only one to arrive, and the same as a timeout if
    there is none. *)
Theorem first_callback_decides (expectedState : string) (m : Machine) :
  fst (waitForCallback expectedState m) =
    fst (waitForCallback expectedState
           (awaiting (option_list (first_callback (inbox (world m)))) m)).
Proof.
  destruct (waitForCallback_serves expectedState m) as (m1 & -> & Hin1 & _).
  destruct (waitForCallback_serves expectedState
              (awaiting (option_list (first_callback (inbox (world m)))) m))
    as (m2 & -> & Hin2 & _).
  cbn [awaiting world inbox] in *.
  pose proof (find_callback_split (inbox (world m))) as Hsplit.
  destruct (first_callback (inbox (world m))) as [rq|].
  - destruct Hsplit as (others & later & Hpending & Hothers & Hrq).
    rewrite Hpending in *.
    rewrite (serve_reaches expectedState others rq later m1 Hothers Hin1).
    cbn [option_list] in *.
    pose proof (serve_reaches expectedState [] rq [] m2 eq_refl Hin2) as Hone.
    cbn [app] in Hone. change (option_list (Some rq)) with [rq]. rewrite Hone.
    apply handler_verdict. exact Hrq.
  - change (option_list None) with (@nil HttpRequest) in *.
    destruct (serve_times_out expectedState (inbox (world m)) m1 Hsplit Hin1)
      as (m1' & -> & _).
    destruct (serve_times_out expectedState [] m2 eq_refl Hin2) as (m2' & -> & _).
    reflexivity.
Qed.

(** X7. During the wait at most one request is answered: none when the
    timer ends the wait, one with status 200 when the wait yields the code,
    one with status 400 in the other cases.  Requests for other paths are
    never answered. *)
Theorem one_answer_per_wait (expectedState : string) (m : Machine) :
  responses (trace (world (snd (waitForCallback expectedState m)))) =
    responses (trace (world m)) ++
    match fst (waitForCallback expectedState m) with
    | Ok _ => [200]
    | Throw CallbackTimeout => []
    | Throw _ => [400]
    end.
Proof.
  destruct (waitForCallback_serves expectedState m) as (m1 & -> & Hin1 & Hsame).
  destruct Hsame as (_ & _ & _ & _ & _ & _ & <-).
  clear Hin1. revert m1.
  induction (inbox (world m)) as [|first later IH]; intros m1.
  - cbn [serve]. run. rewrite !responses_app. cbn. rewrite ?app_nil_r. reflexivity.
  - cbn [serve]. unfold next_request, get_world, set_world, bind, ret.
    cbv beta iota.
    destruct (inbox (world m1)) as [|rq rest]; cbv beta iota; [apply IH|].
    unfold handler.
    destruct (String.eqb (pathname rq) "/callback").
    + destruct (truthy_opt (q_error rq)); [|
        destruct (negb (bool_decide (q_state rq = Some expectedState))); [|
          destruct (negb (truthy_opt (q_code rq)))]];
        run; rewrite !responses_app; cbn; rewrite ?app_nil_r; reflexivity.
    + match goal with
      | |- context [serve expectedState later ?m2] => exact (IH m2)
      end.
Qed.

(** ** Saving and loading *)

(** What [saveTokens] does to the files. *)
Lemma saveTokens_writes (m : Machine) :
  exists m',
    saveTokens m = (Ok tt, m') /\
    self m' = self m /\
    sent m' = sent m /\
    now (world m') = now (world m) /\
    (read_only (fs (world m)) = false ->
       files (fs (world m')) =
         <[tokenPath (self m) :=
             {| content := Json (tokenData (self m));
                readable := match files (fs (world m)) !! tokenPath (self m) with
                            | Some f => readable f
                            | None => true
                            end |}]> (files (fs (world m)))) /\
    (read_only (fs (world m)) = true -> fs (world m') = fs (world m)).
Proof.
  unfold saveTokens. run.
  destruct (read_only (fs (world m))) eqn:Hro; cbn.
  - eexists. split; [reflexivity|]. cbn. split; [reflexivity|].
    split; [unfold sent; cbn; rewrite posts_app; cbn; rewrite app_nil_r; reflexivity|].
    split; [reflexivity|]. split; [discriminate|reflexivity].
  - eexists. split; [reflexivity|]. cbn. split; [reflexivity|].
    split; [reflexivity|]. split; [reflexivity|]. split; [reflexivity|discriminate].
Qed.

(** X8. [saveTokens] never throws.  If the file system can be written, the
    path of the token file is not empty and the file, if it is there, can be
    read, then an instance built afterwards on that path, with any
    credentials, holds exactly the record that was saved. *)
Theorem saved_record_is_reloaded (path_join : string -> string -> string)
    (id secret : string) (m : Machine) :
  fst (saveTokens m) = Ok tt /\
  (read_only (fs (world m)) = false ->
   tokenPath (self m) <> "" ->
   (forall f, files (fs (world m)) !! tokenPath (self m) = Some f -> readable f = true) ->
   tokenData
     (self (constructor path_join id secret (Some (tokenPath (self m)))
              (world (snd (saveTokens m))))) =
     tokenData (self m)).
Proof.
  destruct (saveTokens_writes m) as (m' & Hrun & _ & _ & _ & Hfiles & _).
  rewrite Hrun. split; [reflexivity|]. intros Hrw Hpath Hread. cbn [snd].
  destruct (constructor_loads path_join id secret (Some (tokenPath (self m))) (world m'))
    as (Hp & Htd & _).
  cbn [or_else] in Hp. rewrite (proj2 (truthy_nonempty _) Hpath) in Hp.
  rewrite Htd, Hp, (Hfiles Hrw), lookup_insert_eq.
  destruct (files (fs (world m)) !! tokenPath (self m)) as [f|] eqn:Hf.
  - rewrite (Hread f eq_refl). reflexivity.
  - reflexivity.
Qed.

Lemma saved_record_is_reloaded_witness :
  tokenData
    (self (constructor posix_join "other" "process" (Some token_file)
             (world (snd (saveTokens
                            (holding (Some record_A)
                               (quiet {| files := ∅; read_only := false |} 0 []))))))) =
    Some record_A.
Proof.
  apply (proj2 (saved_record_is_reloaded posix_join "other" "process"
                  (holding (Some record_A)
                     (quiet {| files := ∅; read_only := false |} 0 [])))).
  - reflexivity.
  - discriminate.
  - intros f Hf. discriminate.
Defined.

(** ** What a refresh keeps *)

Lemma js_or_usable (a b : option string) :
  truthy_opt b = true -> truthy_opt (js_or a b) = true.
Proof.
  intros Hb. unfold js_or. destruct (truthy_opt a) eqn:Ha; assumption.
Qed.

(** A record that is not inside the buffer is returned as it is. *)
Lemma getAccessToken_fresh (m : Machine) (t : TokenData) :
  tokenData (self m) = Some t ->
  expires_at t > now (world m) + 60000 ->
  getAccessToken m = (Ok (access_token t), m).
Proof.
  intros Ht Hgt. unfold getAccessToken, bind, this, Date_now, ret.
  cbv beta iota. rewrite Ht. cbv beta iota.
  rewrite (proj2 (Z.leb_gt _ _)) by lia. cbv beta iota. rewrite Ht. reflexivity.
Qed.

(** The record held after [refreshAccessToken], in every case. *)
Lemma refresh_outcomes (m : Machine) :
  self (snd (refreshAccessToken m)) = self m \/
  exists t R data,
    tokenData (self m) = Some t /\
    refresh_token t = Some R /\ R <> "" /\
    next_answer (world m) = Success data /\
    same_identity (self (snd (refreshAccessToken m))) (self m) /\
    tokenData (self (snd (refreshAccessToken m))) =
      Some {| access_token := resp_access_token data;
              refresh_token := js_or (resp_refresh_token data) (Some R);
              expires_at := now (world m) + next_latency (world m)
                            + resp_expires_in data * 1000;
              token_type := resp_token_type data;
              scope := resp_scope data |}.
Proof.
  destruct (truthy_opt (tokenData (self m) ≫= refresh_token)) eqn:Husable.
  - destruct (tokenData (self m)) as [t|] eqn:Ht; [|discriminate].
    cbn in Husable. destruct (refresh_token t) as [R|] eqn:HR; [|discriminate].
    cbn in Husable. apply truthy_nonempty in Husable.
    destruct (next_answer (world m)) as [data|status|] eqn:Hans.
    + right. exists t, R, data.
      destruct (refresh_succeeds m t R Ht HR Husable data Hans)
        as (m' & Hrun & Htd & Hpath & _).
      rewrite Hrun. cbn [snd]. repeat split; try assumption.
      * revert Hrun. unfold refreshAccessToken, saveTokens. run.
        rewrite Ht. cbn. rewrite HR. cbn.
        rewrite (proj2 (truthy_nonempty R) Husable). cbn.
        destruct (endpoint (world m)) as [|[lat ans] rest]; cbn; [discriminate|].
        destruct ans; cbn; [|discriminate..].
        destruct (read_only (fs (world m))); cbn; intros [= <-]; reflexivity.
      * revert Hrun. unfold refreshAccessToken, saveTokens. run.
        rewrite Ht. cbn. rewrite HR. cbn.
        rewrite (proj2 (truthy_nonempty R) Husable). cbn.
        destruct (endpoint (world m)) as [|[lat ans] rest]; cbn; [discriminate|].
        destruct ans; cbn; [|discriminate..].
        destruct (read_only (fs (world m))); cbn; intros [= <-]; reflexivity.
    + left. destruct (refresh_fails m t R Ht HR Husable) as (m' & Hrun & Hself & _).
      { rewrite Hans. discriminate. }
      rewrite Hrun. exact Hself.
    + left. destruct (refresh_fails m t R Ht HR Husable) as (m' & Hrun & Hself & _).
      { rewrite Hans. discriminate. }
      rewrite Hrun. exact Hself.
  - left. rewrite (refresh_guard m Husable). reflexivity.
Qed.

(** The instance after [getAccessToken] is the one after the refresh it
    made, or the one before. *)
Lemma getAccessToken_self (m : Machine) :
  self (snd (getAccessToken m)) = self m \/
  self (snd (getAccessToken m)) = self (snd (refreshAccessToken m)).
Proof.
  destruct (tokenData (self m)) as [t|] eqn:Ht.
  - destruct (Z_le_gt_dec (expires_at t) (now (world m) + 60000)) as [Hle|Hgt].
    + right. rewrite (getAccessToken_stale m t Ht Hle).
      destruct (refreshAccessToken m) as [[[]|e] m']; [|reflexivity].
      destruct (tokenData (self m')); reflexivity.
    + left. rewrite (getAccessToken_fresh m t Ht Hgt). reflexivity.
  - left. unfold getAccessToken, bind, this. cbv beta iota. rewrite Ht. reflexivity.
Qed.

(** X9. A usable [refresh_token] is never lost by a refresh: if the record
    held has a non-empty one, so has the record held after
    [refreshAccessToken] and after [getAccessToken], whether the refresh
    succeeded or not and whatever the response carried. *)
Theorem refresh_token_stays_usable (m : Machine) :
  truthy_opt (tokenData (self m) ≫= refresh_token) = true ->
  truthy_opt (tokenData (self (snd (refreshAccessToken m))) ≫= refresh_token) = true /\
  truthy_opt (tokenData (self (snd (getAccessToken m))) ≫= refresh_token) = true.
Proof.
  intros Husable.
  assert (Hrefresh :
    truthy_opt (tokenData (self (snd (refreshAccessToken m))) ≫= refresh_token) = true).
  { destruct (refresh_outcomes m) as [Hsame|(t & R & data & _ & _ & Hne & _ & _ & Htd)].
    - rewrite Hsame. exact Husable.
    - rewrite Htd. cbn. apply js_or_usable. cbn. apply truthy_nonempty. exact Hne. }
  split; [exact Hrefresh|].
  destruct (getAccessToken_self m) as [-> | ->]; assumption.
Qed.

Lemma refresh_token_stays_usable_witness :
  truthy_opt
    (tokenData (self (snd (getAccessToken
                             (scenario 4599950 (answers (Success response_empty))))))
       ≫= refresh_token) = true.
Proof.
  apply (refresh_token_stays_usable
           (scenario 4599950 (answers (Success response_empty)))).
  reflexivity.
Defined.

(** X10. After a refresh that succeeded, the token is valid exactly when
    the response gave it more than sixty seconds: then [getAccessToken]
    returns the new token without any request; with [expires_in] of sixty
    seconds or less every [getAccessToken] sends a refresh again. *)
Theorem refreshed_token_validity (m : Machine) (t : TokenData) (R : string)
    (data : TokenResponse) :
  tokenData (self m) = Some t ->
  refresh_token t = Some R ->
  R <> "" ->
  next_answer (world m) = Success data ->
  exists m',
    refreshAccessToken m = (Ok tt, m') /\
    fst (hasValidTokens m') = Ok (resp_expires_in data * 1000 >? 60000) /\
    (resp_expires_in data * 1000 > 60000 ->
       getAccessToken m' = (Ok (resp_access_token data), m')) /\
    (resp_expires_in data * 1000 <= 60000 ->
       exists rq, sent (snd (getAccessToken m')) = sent m' ++ [rq]).
Proof.
  intros Ht HR Hne Hans.
  destruct (refresh_succeeds m t R Ht HR Hne data Hans) as (m' & Hrun & Htd & _).
  assert (Hnow : now (world m') = now (world m) + next_latency (world m)).
  { revert Hrun. unfold refreshAccessToken, saveTokens, next_latency, next_answer in *.
    run. rewrite Ht. cbn. rewrite HR. cbn.
    rewrite (proj2 (truthy_nonempty R) Hne). cbn.
    destruct (endpoint (world m)) as [|[lat ans] rest]; cbn; [discriminate|].
    destruct ans; cbn; [|discriminate..].
    destruct (read_only (fs (world m))); cbn; intros [= <-]; reflexivity. }
  exists m'. split; [exact Hrun|]. split; [|split].
  - unfold hasValidTokens, bind, this, Date_now, ret. cbv beta iota.
    rewrite Htd. cbn. rewrite Hnow. f_equal.
    destruct (Z.gtb_spec (resp_expires_in data * 1000) 60000);
      [apply gtb_true|apply gtb_false]; lia.
  - intros Hlong.
    rewrite (getAccessToken_fresh m' _ Htd); [reflexivity|]. cbn. lia.
  - intros Hshort.
    rewrite (getAccessToken_stale m' _ Htd) by (cbn; lia).
    assert (Husable : exists R', js_or (resp_refresh_token data) (Some R) = Some R'
                                 /\ R' <> "").
    { pose proof (js_or_usable (resp_refresh_token data) (Some R)) as Hus.
      cbn in Hus. specialize (Hus (proj2 (truthy_nonempty R) Hne)).
      destruct (js_or (resp_refresh_token data) (Some R)) as [R'|]; [|discriminate].
      exists R'. split; [reflexivity|]. apply truthy_nonempty. exact Hus. }
    destruct Husable as (R' & HR' & Hne').
    destruct (next_answer (world m')) as [data'|status|] eqn:Hans'.
    + destruct (refresh_succeeds m' _ R' Htd HR' Hne' data' Hans')
        as (m'' & Hrun' & Htd' & _ & Hsent' & _).
      rewrite Hrun', Htd'. eexists. exact Hsent'.
    + destruct (refresh_fails m' _ R' Htd HR' Hne') as (m'' & Hrun' & _ & _ & Hsent' & _).
      { rewrite Hans'. discriminate. }
      rewrite Hrun'. eexists. exact Hsent'.
    + destruct (refresh_fails m' _ R' Htd HR' Hne') as (m'' & Hrun' & _ & _ & Hsent' & _).
      { rewrite Hans'. discriminate. }
      rewrite Hrun'. eexists. exact Hsent'.
Qed.

Lemma refreshed_token_validity_witness :
  exists m',
    refreshAccessToken (scenario 4599950 (answers (Success response_B))) = (Ok tt, m') /\
    getAccessToken m' = (Ok "B", m').
Proof.
  destruct (refreshed_token_validity (scenario 4599950 (answers (Success response_B)))
              record_A "R" response_B eq_refl eq_refl)
    as (m' & Hrun & _ & Hlong & _); [discriminate|reflexivity|].
  exists m'. split; [exact Hrun|]. apply Hlong. cbn. lia.
Defined.

(** ** What an instance is *)

Lemma same_identity_refl (a : SpotifyAuth) : same_identity a a.
Proof. repeat split. Qed.

Lemma exchange_identity (code : string) (m : Machine) :
  same_identity (self (snd (exchangeCodeForTokens code m))) (self m).
Proof.
  unfold exchangeCodeForTokens, saveTokens. run.
  destruct (endpoint (world m)) as [|[lat ans] rest]; cbn; [repeat split|].
  destruct ans; cbn; [|repeat split..].
  destruct (read_only (fs (world m))); cbn; repeat split.
Qed.

(** X11. No method changes what the instance is: after
    [hasValidTokens], [getAccessToken], [refreshAccessToken],
    [authenticate] and [clearTokens], whatever their outcome, the client
    id, the client secret and the path of the token file are those the
    instance was built with. *)
Theorem identity_is_kept (m : Machine) :
  same_identity (self (snd (hasValidTokens m))) (self m) /\
  same_identity (self (snd (getAccessToken m))) (self m) /\
  same_identity (self (snd (refreshAccessToken m))) (self m) /\
  same_identity (self (snd (authenticate m))) (self m) /\
  same_identity (self (snd (clearTokens m))) (self m).
Proof.
  assert (Hrefresh : same_identity (self (snd (refreshAccessToken m))) (self m)).
  { destruct (refresh_outcomes m) as [->|(_ & _ & _ & _ & _ & _ & _ & Hid & _)];
      [apply same_identity_refl|exact Hid]. }
  split; [|split; [|split; [exact Hrefresh|split]]].
  - unfold hasValidTokens, bind, this, Date_now, ret. cbv beta iota.
    destruct (tokenData (self m)); apply same_identity_refl.
  - destruct (getAccessToken_self m) as [-> | ->];
      [apply same_identity_refl|exact Hrefresh].
  - destruct (authenticate_serves m) as (S & m1 & _ & Hsame & _ & Hauth).
    rewrite Hauth.
    destruct (serve_closes S (inbox (world m)) m1)
      as (r & m2 & before & Hrun & _ & _ & _ & _ & Hself & _).
    rewrite Hrun. destruct Hsame as (Hself1 & _).
    destruct r as [code|e]; cbn [snd].
    + pose proof (exchange_identity code m2) as Hid.
      destruct (exchangeCodeForTokens code m2) as [[[]|e] m3]; cbn [snd] in *.
      * unfold console_error, emit. cbn [snd self]. rewrite <- Hself1, <- Hself. exact Hid.
      * rewrite <- Hself1, <- Hself. exact Hid.
    + rewrite Hself, Hself1. apply same_identity_refl.
  - destruct (clearTokens_once m) as (m' & Hrun & Hself & _).
    rewrite Hrun. cbn [snd]. rewrite Hself. repeat split.
Qed.

(** ** After a logout *)

(** X12. After [clearTokens], whether the file could be removed or not,
    the instance is not authenticated: [hasValidTokens] answers false,
    [getAccessToken] fails with "Not authenticated. Run the auth flow
    first." and [refreshAccessToken] with "No refresh token available. Run
    the auth flow first.", and none of them sends a request. *)
Theorem logged_out_instance (m : Machine) :
  exists m',
    clearTokens m = (Ok tt, m') /\
    sent m' = sent m /\
    hasValidTokens m' = (Ok false, m') /\
    getAccessToken m' = (Throw NotAuthenticated, m') /\
    refreshAccessToken m' = (Throw NoRefreshToken, m').
Proof.
  destruct (clearTokens_once m) as (m' & Hrun & Hself & _).
  assert (Hnone : tokenData (self m') = None) by (rewrite Hself; reflexivity).
  exists m'. split; [exact Hrun|]. split; [|split; [|split]].
  - clear Hself Hnone. revert Hrun. unfold clearTokens. run.
    destruct (files (fs (world m)) !! tokenPath (self m)) eqn:Hfile;
      cbn; rewrite ?Hfile; cbn.
    + destruct (read_only (fs (world m))); cbn; intros [= <-];
        unfold sent; cbn; rewrite ?posts_app; cbn; rewrite ?app_nil_r; reflexivity.
    + intros [= <-]. reflexivity.
  - unfold hasValidTokens, bind, this. cbv beta iota. rewrite Hnone. reflexivity.
  - unfold getAccessToken, bind, this. cbv beta iota. rewrite Hnone. reflexivity.
  - apply refresh_guard. rewrite Hnone. reflexivity.
Qed.

(** ** The state *)

Lemma length_append (a b : string) :
  String.length (a +:+ b) = (String.length a + String.length b)%nat.
Proof.
  induction a as [|c a IH]; [reflexivity|].
  change (String c a +:+ b) with (String c (a +:+ b)). cbn [String.length].
  rewrite IH. reflexivity.
Qed.

Lemma all_hex_append (a b : string) : all_hex (a +:+ b) = all_hex a && all_hex b.
Proof.
  unfold all_hex. induction a as [|c a IH]; [reflexivity|].
  change (String c a +:+ b) with (String c (a +:+ b)).
  cbn [String.list_ascii_of_string forallb]. rewrite IH. apply andb_assoc.
Qed.

Lemma hex_byte_shape (b : Z) :
  0 <= b < 256 ->
  String.length (hex_byte b) = 2%nat /\ all_hex (hex_byte b) = true.
Proof.
  intros Hb.
  assert (Hall : forallb (fun b => Nat.eqb (String.length (hex_byte b)) 2
                                   && all_hex (hex_byte b)) (seqZ 0 256) = true)
    by (vm_compute; reflexivity).
  rewrite forallb_forall in Hall.
  specialize (Hall b). rewrite <- list_elem_of_In, elem_of_seqZ in Hall.
  specialize (Hall ltac:(lia)). apply andb_prop in Hall as [Hlen Hhex].
  split; [apply Nat.eqb_eq; exact Hlen|exact Hhex].
Qed.

Lemma to_hex_shape (bytes : list Z) :
  Forall (fun b => 0 <= b < 256) bytes ->
  String.length (to_hex bytes) = (2 * length bytes)%nat /\ all_hex (to_hex bytes) = true.
Proof.
  induction 1 as [|b bytes Hb _ [IHlen IHhex]]; [split; reflexivity|].
  destruct (hex_byte_shape b Hb) as [Hlen Hhex].
  cbn [to_hex fold_right length].
  change (fold_right (fun b s => hex_byte b +:+ s) "" bytes) with (to_hex bytes).
  rewrite length_append, all_hex_append, Hlen, Hhex, IHlen, IHhex.
  split; [lia|reflexivity].
Qed.

(** X13. [generateState] gives thirty-two characters, each a lower-case
    hexadecimal digit, whatever the random bytes are; it takes sixteen of
    them, so that the next call reads the following ones, and it touches
    neither the instance nor the files. *)
Theorem generateState_shape (m : Machine) :
  exists S m',
    generateState m = (Ok S, m') /\
    String.length S = 32%nat /\
    all_hex S = true /\
    drawn (world m') = (drawn (world m) + 16)%nat /\
    rng (world m') = rng (world m) /\
    self m' = self m /\
    fs (world m') = fs (world m) /\
    trace (world m') = trace (world m).
Proof.
  unfold generateState. unfold_prims. cbn -[to_hex seq].
  eexists _, _. split; [reflexivity|].
  cbn [world self drawn rng fs trace].
  destruct (to_hex_shape
              (map (fun i => rng (world m) (drawn (world m) + i)%nat mod 256) (seq 0 16)))
    as [Hlen Hhex].
  { apply Forall_forall. intros b Hb. apply list_elem_of_In, in_map_iff in Hb.
    destruct Hb as (i & <- & _). apply Z.mod_pos_bound. lia. }
  rewrite length_map, length_seq in Hlen.
  split; [exact Hlen|]. split; [exact Hhex|]. repeat split.
Qed.

(** * The scripts *)

(** Building an instance reads the token file and nothing else. *)
Lemma constructor_frame (path_join : string -> string -> string)
    (id secret : string) (path : option string) (w : World) :
  let m := constructor path_join id secret path w in
  env (world m) = env w /\
  endpoint (world m) = endpoint w /\
  posts (trace (world m)) = posts (trace w) /\
  clientId (self m) = id /\
  clientSecret (self m) = secret.
Proof.
  unfold constructor, loadTokens. run.
  set (p := or_else path _).
  destruct (files (fs w) !! p) as [[text can_read]|] eqn:Hfile;
    cbn; rewrite ?Hfile; cbn.
  - destruct can_read; cbn; rewrite ?Hfile; cbn.
    + destruct text; cbn; rewrite ?posts_app; cbn; rewrite ?app_nil_r; repeat split.
    + rewrite ?posts_app; cbn; rewrite ?app_nil_r; repeat split.
  - repeat split.
Qed.

Lemma clearTokens_frame (m : Machine) :
  env (world (snd (clearTokens m))) = env (world m) /\
  now (world (snd (clearTokens m))) = now (world m) /\
  endpoint (world (snd (clearTokens m))) = endpoint (world m) /\
  sent (snd (clearTokens m)) = sent m.
Proof.
  unfold clearTokens. run.
  destruct (files (fs (world m)) !! tokenPath (self m)) eqn:Hfile;
    cbn; rewrite ?Hfile; cbn.
  - destruct (read_only (fs (world m))); cbn; repeat split;
      unfold sent; cbn; rewrite ?posts_app; cbn; rewrite ?app_nil_r; reflexivity.
  - repeat split.
Qed.

Lemma hasValidTokens_answer (m : Machine) :
  hasValidTokens m =
    (Ok match tokenData (self m) with
        | Some t => expires_at t >? now (world m) + 60000
        | None => false
        end, m).
Proof.
  unfold hasValidTokens, bind, this, Date_now, ret. cbv beta iota.
  destruct (tokenData (self m)); reflexivity.
Qed.

Lemma credentials_pass (w : World) :
  credentials w ->
  negb (truthy_opt (env w !! "SPOTIFY_CLIENT_ID"))
  || negb (truthy_opt (env w !! "SPOTIFY_CLIENT_SECRET")) = false.
Proof. intros [-> ->]. reflexivity. Qed.

Section ScriptProperties.

Variable path_join : string -> string -> string.

(** X14. [npm run auth refresh] refreshes only a token that is still
    valid.  When the record of the token file is missing or within sixty
    seconds of its expiry (or past it), the command exits with 1 without
    sending anything to the token endpoint, even if the record has a
    refresh token, and leaves the files as they are. *)
Theorem cli_refresh_needs_valid_token (w : World) (more : list string) :
  credentials w ->
  (forall t, tokenData (self (script_instance path_join w)) = Some t ->
             expires_at t <= now w + 60000) ->
  let run := auth_cli path_join (npm_run_auth ("refresh" :: more)) w in
  exit_code run = Some 1 /\
  stdout run = [] /\
  fs (final run) = fs w /\
  endpoint (final run) = endpoint w /\
  posts (trace (final run)) = posts (trace w).
Proof.
  intros Hcred Hstale. unfold auth_cli. rewrite (credentials_pass w Hcred).
  cbn [npm_run_auth drop head or_else truthy String.eqb Ascii.eqb Bool.eqb negb
       is_one_of existsb orb].
  fold (script_instance path_join w).
  rewrite hasValidTokens_answer.
  destruct (constructor_loads path_join
              (default "" (env w !! "SPOTIFY_CLIENT_ID"))
              (default "" (env w !! "SPOTIFY_CLIENT_SECRET")) None w)
    as (_ & _ & Hfs & Hnow).
  destruct (constructor_frame path_join
              (default "" (env w !! "SPOTIFY_CLIENT_ID"))
              (default "" (env w !! "SPOTIFY_CLIENT_SECRET")) None w)
    as (_ & Hend & Hposts & _).
  fold (script_instance path_join w) in Hfs, Hnow, Hend, Hposts.
  assert (Hinvalid :
    match tokenData (self (script_instance path_join w)) with
    | Some t => expires_at t >? now (world (script_instance path_join w)) + 60000
    | None => false
    end = false).
  { destruct (tokenData (self (script_instance path_join w))) as [t|]; [|reflexivity].
    apply gtb_false. rewrite Hnow. apply Hstale. reflexivity. }
  rewrite Hinvalid. cbn [exit_code stdout final stderr fs endpoint trace].
  repeat split; try assumption.
  rewrite posts_app, Hposts. cbn. apply app_nil_r.
Qed.

Lemma status_run (w : World) (more : list string) :
  credentials w ->
  let run := auth_cli path_join (npm_run_auth ("status" :: more)) w in
  let path := tokenPath (self (script_instance path_join w)) in
  exit_code run = None /\
  fs (final run) = fs w /\
  posts (trace (final run)) = posts (trace w) /\
  (stdout run = ["Status: Authenticated"; "You have valid tokens stored."] \/
   stdout run = ["Status: Not authenticated"; "Run 'npm run auth' to authenticate."]) /\
  (stdout run = ["Status: Authenticated"; "You have valid tokens stored."] <->
   exists t, files (fs w) !! path =
               Some {| content := Json (Some t); readable := true |} /\
             expires_at t > now w + 60000).
Proof.
  intros Hcred. unfold auth_cli. rewrite (credentials_pass w Hcred).
  cbn [npm_run_auth drop head or_else truthy String.eqb Ascii.eqb Bool.eqb negb
       is_one_of existsb orb].
  fold (script_instance path_join w).
  rewrite hasValidTokens_answer.
  destruct (constructor_loads path_join
              (default "" (env w !! "SPOTIFY_CLIENT_ID"))
              (default "" (env w !! "SPOTIFY_CLIENT_SECRET")) None w)
    as (_ & Htd & Hfs & Hnow).
  destruct (constructor_frame path_join
              (default "" (env w !! "SPOTIFY_CLIENT_ID"))
              (default "" (env w !! "SPOTIFY_CLIENT_SECRET")) None w)
    as (_ & _ & Hposts & _).
  fold (script_instance path_join w) in Htd, Hfs, Hnow, Hposts.
  rewrite Htd, Hnow.
  destruct (files (fs w) !! tokenPath (self (script_instance path_join w)))
    as [[text can_read]|].
  - destruct text as [|[t|]], can_read; cbn.
    all: try (repeat split; try assumption; try (right; reflexivity);
              try discriminate; intros (t' & Heq & _); discriminate).
    destruct (expires_at t >? now w + 60000) eqn:Hvalid; cbn.
    + repeat split; try assumption; [left; reflexivity|].
      exists t. split; [reflexivity|]. apply gtb_true. exact Hvalid.
    + repeat split; try assumption; [right; reflexivity|discriminate|].
      intros (t' & Heq & Hgt). exfalso.
      assert (t' = t) by congruence. subst t'.
      apply gtb_false in Hvalid. lia.
  - cbn. repeat split; try assumption; [right; reflexivity|discriminate|].
    intros (t' & Heq & _). discriminate.
Qed.

(** X15. [npm run auth status] changes neither the files nor the endpoint
    script and sends nothing; it prints "Status: Authenticated" exactly
    when the token file can be read and holds a record with
    [expires_at > now + 60000], and "Status: Not authenticated"
    otherwise. *)
Theorem cli_status_reports_the_store (w : World) (more : list string) :
  credentials w ->
  let run := auth_cli path_join (npm_run_auth ("status" :: more)) w in
  let path := tokenPath (self (script_instance path_join w)) in
  exit_code run = None /\
  fs (final run) = fs w /\
  posts (trace (final run)) = posts (trace w) /\
  (stdout run = ["Status: Authenticated"; "You have valid tokens stored."] \/
   stdout run = ["Status: Not authenticated"; "Run 'npm run auth' to authenticate."]) /\
  (stdout run = ["Status: Authenticated"; "You have valid tokens stored."] <->
   exists t, files (fs w) !! path =
               Some {| content := Json (Some t); readable := true |} /\
             expires_at t > now w + 60000).
Proof.
  exact (status_run w more).
Qed.

End ScriptProperties.

Section AcrossProcesses.

Variable path_join : string -> string -> string.

(** X16. After [npm run auth logout] on files that can be written, a
    following [npm run auth status] prints "Status: Not authenticated",
    whatever the token file held; both commands run to their end. *)
Theorem cli_logout_then_status (w : World) :
  credentials w ->
  read_only (fs w) = false ->
  let out := auth_cli path_join (npm_run_auth ["logout"]) w in
  let again := auth_cli path_join (npm_run_auth ["status"]) (final out) in
  exit_code out = None /\
  stdout out = ["Tokens cleared. You will need to re-authenticate."] /\
  files (fs (final out)) !! tokenPath (self (script_instance path_join w)) = None /\
  exit_code again = None /\
  stdout again = ["Status: Not authenticated"; "Run 'npm run auth' to authenticate."].
Proof.
  intros Hcred Hrw.
  destruct (constructor_loads path_join
              (default "" (env w !! "SPOTIFY_CLIENT_ID"))
              (default "" (env w !! "SPOTIFY_CLIENT_SECRET")) None w)
    as (Hpath & _ & Hfs & _).
  destruct (constructor_frame path_join
              (default "" (env w !! "SPOTIFY_CLIENT_ID"))
              (default "" (env w !! "SPOTIFY_CLIENT_SECRET")) None w)
    as (Henv & _).
  fold (script_instance path_join w) in Hpath, Hfs, Henv.
  destruct (clearTokens_once (script_instance path_join w))
    as (m' & Hrun & _ & _ & _ & Hgone & _).
  pose proof (clearTokens_frame (script_instance path_join w)) as (Henv' & _).
  rewrite Hrun in Henv'. cbn [snd] in Henv'.
  assert (Hout : auth_cli path_join (npm_run_auth ["logout"]) w =
                 {| exit_code := None;
                    stdout := ["Tokens cleared. You will need to re-authenticate."];
                    final := world m' |}).
  { unfold auth_cli. rewrite (credentials_pass w Hcred).
    cbn [npm_run_auth drop head or_else truthy String.eqb Ascii.eqb Bool.eqb negb
         is_one_of existsb orb].
    fold (script_instance path_join w). rewrite Hrun. reflexivity. }
  cbv zeta. rewrite Hout. cbn [exit_code stdout final].
  assert (Habsent : files (fs (world m')) !! tokenPath (self (script_instance path_join w))
                    = None).
  { specialize (Hgone ltac:(rewrite Hfs; exact Hrw)). unfold stored in Hgone.
    destruct (files (fs (world m')) !! _); [discriminate|reflexivity]. }
  split; [reflexivity|]. split; [reflexivity|]. split; [exact Habsent|].
  assert (Hcred' : credentials (world m')).
  { unfold credentials in *. rewrite Henv', Henv. exact Hcred. }
  destruct (status_run path_join (world m') [] Hcred')
    as (Hexit & _ & _ & Hlines & Hiff).
  split; [exact Hexit|].
  destruct Hlines as [Hyes|Hno]; [|exact Hno].
  exfalso. apply Hiff in Hyes. destruct Hyes as (t & Hfile & _).
  destruct (constructor_loads path_join
              (default "" (env (world m') !! "SPOTIFY_CLIENT_ID"))
              (default "" (env (world m') !! "SPOTIFY_CLIENT_SECRET")) None (world m'))
    as (Hpath' & _).
  fold (script_instance path_join (world m')) in Hpath'.
  rewrite Hpath', Henv', Henv, <- Hpath, Habsent in Hfile. discriminate.
Qed.

(** X17. [index.ts] with credentials and no [SPOTIFY_ACCESS_TOKEN] serves
    exactly when the token file can be read and holds a record with
    [expires_at > now + 60000]; otherwise it exits, without sending
    anything to the token endpoint and without touching the files, even
    when the record has a refresh token. *)
Theorem server_needs_valid_token (w : World) :
  truthy_opt (env w !! "SPOTIFY_ACCESS_TOKEN") = false ->
  credentials w ->
  let path := tokenPath (self (script_instance path_join w)) in
  fs (snd (server_startup path_join w)) = fs w /\
  posts (trace (snd (server_startup path_join w))) = posts (trace w) /\
  (is_Some (fst (server_startup path_join w)) <->
   exists t, files (fs w) !! path =
               Some {| content := Json (Some t); readable := true |} /\
             expires_at t > now w + 60000).
Proof.
  intros Hdirect [Hid Hsecret]. unfold server_startup.
  rewrite Hdirect, Hid, Hsecret. cbn [andb].
  fold (script_instance path_join w).
  rewrite hasValidTokens_answer.
  destruct (constructor_loads path_join
              (default "" (env w !! "SPOTIFY_CLIENT_ID"))
              (default "" (env w !! "SPOTIFY_CLIENT_SECRET")) None w)
    as (_ & Htd & Hfs & Hnow).
  destruct (constructor_frame path_join
              (default "" (env w !! "SPOTIFY_CLIENT_ID"))
              (default "" (env w !! "SPOTIFY_CLIENT_SECRET")) None w)
    as (_ & _ & Hposts & _).
  fold (script_instance path_join w) in Htd, Hfs, Hnow, Hposts.
  rewrite Htd, Hnow.
  assert (Hno : forall A (P : A -> Prop), is_Some (@None SpotifyClient) ->
                                           exists x, P x).
  { intros A P [c Hc]. discriminate. }
  destruct (files (fs w) !! tokenPath (self (script_instance path_join w)))
    as [[text can_read]|].
  - destruct text as [|[t|]], can_read; cbn.
    all: rewrite ?posts_app; cbn; rewrite ?app_nil_r.
    all: try (split; [exact Hfs|]; split; [exact Hposts|];
              split; [apply Hno|]; intros (t' & Heq & _); discriminate).
    destruct (expires_at t >? now w + 60000) eqn:Hvalid; cbn;
      rewrite ?posts_app; cbn; rewrite ?app_nil_r.
    + split; [exact Hfs|]. split; [exact Hposts|]. split.
      * intros _. exists t. split; [reflexivity|]. apply gtb_true. exact Hvalid.
      * intros _. eexists. reflexivity.
    + split; [exact Hfs|]. split; [exact Hposts|]. split; [apply Hno|].
      intros (t' & Heq & Hgt). exfalso.
      assert (t' = t) by congruence. subst t'.
      apply gtb_false in Hvalid. lia.
  - cbn. rewrite ?posts_app; cbn; rewrite ?app_nil_r.
    split; [exact Hfs|]. split; [exact Hposts|]. split; [apply Hno|].
    intros (t' & Heq & _). discriminate.
Qed.

End AcrossProcesses.

(** ** The client *)

(** A refresh that succeeded with more than sixty seconds of life. *)
Lemma refreshed_token_validity_aux (m : Machine) (t : TokenData) (R : string)
    (data : TokenResponse) :
  tokenData (self m) = Some t ->
  refresh_token t = Some R ->
  R <> "" ->
  next_answer (world m) = Success data ->
  resp_expires_in data * 1000 > 60000 ->
  exists m',
    refreshAccessToken m = (Ok tt, m') /\
    tokenData (self m') =
      Some {| access_token := resp_access_token data;
              refresh_token := js_or (resp_refresh_token data) (Some R);
              expires_at := now (world m) + next_latency (world m)
                            + resp_expires_in data * 1000;
              token_type := resp_token_type data;
              scope := resp_scope data |} /\
    sent m' = sent m ++ [refresh_request (self m) R] /\
    getAccessToken m' = (Ok (resp_access_token data), m').
Proof.
  intros Ht HR Hne Hans Hlong.
  destruct (refresh_succeeds m t R Ht HR Hne data Hans) as (m' & Hrun & Htd & _ & Hsent & _).
  assert (Hnow : now (world m') = now (world m) + next_latency (world m)).
  { revert Hrun. unfold refreshAccessToken, saveTokens, next_latency, next_answer in *.
    run. rewrite Ht. cbn. rewrite HR. cbn.
    rewrite (proj2 (truthy_nonempty R) Hne). cbn.
    destruct (endpoint (world m)) as [|[lat ans] rest]; cbn; [discriminate|].
    destruct ans; cbn; [|discriminate..].
    destruct (read_only (fs (world m))); cbn; intros [= <-]; reflexivity. }
  exists m'. split; [exact Hrun|]. split; [exact Htd|]. split; [exact Hsent|].
  rewrite (getAccessToken_fresh m' _ Htd); [reflexivity|]. cbn. lia.
Qed.


Lemma getToken_reuses (auth : SpotifyAuth) (w : World)
    (t : TokenData) (R : string) (data : TokenResponse) :
  tokenData auth = Some t ->
  expires_at t <= now w + 60000 ->
  refresh_token t = Some R ->
  R <> "" ->
  next_answer w = Success data ->
  resp_expires_in data * 1000 > 60000 ->
  exists c' w',
    getToken {| tokenProvider := inr auth |} w = (Ok (resp_access_token data), (c', w')) /\
    posts (trace w') = posts (trace w) ++ [refresh_request auth R] /\
    getToken c' w' = (Ok (resp_access_token data), (c', w')).
Proof.
  intros Ht Hle HR Hne Hans Hlong. unfold getToken at 1. cbn [tokenProvider].
  set (m := {| self := auth; world := w |}).
  rewrite (getAccessToken_stale m t Ht Hle).
  destruct (refreshed_token_validity_aux m t R data Ht HR Hne Hans Hlong)
    as (m' & Hrun & Htd & Hsent & Hagain).
  rewrite Hrun, Htd. eexists _, _. split; [reflexivity|]. split; [exact Hsent|].
  unfold getToken. cbn [tokenProvider].
  destruct m' as [a' w']. cbn [self world] in *. rewrite Hagain. reflexivity.
Qed.

(** X18. A client built on an instance shares it: when the record is
    inside the buffer and the refresh succeeds with more than sixty seconds
    of life, the request of the client carries "Bearer " followed by the
    new token after one request to the token endpoint, and the next
    request of the same client carries it again without any. *)
Theorem client_reuses_refreshed_token (auth : SpotifyAuth) (w : World)
    (t : TokenData) (R : string) (data : TokenResponse) :
  tokenData auth = Some t ->
  expires_at t <= now w + 60000 ->
  refresh_token t = Some R ->
  R <> "" ->
  next_answer w = Success data ->
  resp_expires_in data * 1000 > 60000 ->
  exists c' w',
    authorization {| tokenProvider := inr auth |} w =
      (Ok ("Bearer " +:+ resp_access_token data), (c', w')) /\
    posts (trace w') = posts (trace w) ++ [refresh_request auth R] /\
    authorization c' w' = (Ok ("Bearer " +:+ resp_access_token data), (c', w')).
Proof.
  intros Ht Hle HR Hne Hans Hlong.
  destruct (getToken_reuses auth w t R data Ht Hle HR Hne Hans Hlong)
    as (c' & w' & Hfirst & Hposts & Hsecond).
  exists c', w'. unfold authorization. rewrite Hfirst, Hsecond.
  split; [reflexivity|]. split; [exact Hposts|reflexivity].
Qed.

(** * [formatDuration] *)


(** [formatDuration] on a positive duration. *)
Lemma formatDuration_positive (ms : Z) :
  0 < ms ->
  formatDuration (Some ms) =
    pretty (ms / 60000) +:+ ":" +:+ two_digits ((ms mod 60000 + 500) / 1000).
Proof.
  intros Hpos. destruct ms as [|p|p]; [lia| |lia].
  unfold formatDuration, toFixed0_thousandths, parseInt_thousandths, two_digits.
  rewrite Z.rem_mod_nonneg by lia.
  assert (Hrest : 0 <= Z.pos p mod 60000 < 60000) by (apply Z.mod_pos_bound; lia).
  rewrite (proj2 (Z.ltb_ge (Z.pos p mod 60000) 0)) by lia.
  rewrite Z.abs_eq by lia. reflexivity.
Qed.


(** X20. The seconds are rounded and the minute is not carried: on a
    positive duration that is a safe integer and whose part beyond the
    whole minutes is 59.5 seconds or more, [formatDuration] prints the whole
    minutes followed by ":60". *)
Theorem formatDuration_sixty_seconds (ms : Z) :
  0 < ms ->
  safe_integer ms ->
  59500 <= ms mod 60000 ->
  formatDuration (Some ms) = pretty (ms / 60000) +:+ ":60".
Proof.
  intros Hpos _ Hlate. rewrite (formatDuration_positive ms Hpos).
  assert (Hrest : 0 <= ms mod 60000 < 60000) by (apply Z.mod_pos_bound; lia).
  replace ((ms mod 60000 + 500) / 1000) with 60; [reflexivity|].
  apply Z.div_unique with (r := ms mod 60000 + 500 - 60000); lia.
Qed.

Lemma formatDuration_sixty_seconds_witness :
  formatDuration (Some 119700) = "1:60".
Proof.
  rewrite (formatDuration_sixty_seconds 119700);
    [reflexivity|lia|unfold safe_integer, MAX_SAFE_INTEGER; lia|].
  vm_compute. discriminate.
Defined.

(** X21. A duration of [minutes] minutes, [seconds] seconds (fewer than
    sixty) and fewer than 500 milliseconds, not zero and a safe integer, is
    printed by [formatDuration] as the minutes, a colon and the seconds on
    two digits. *)
Theorem formatDuration_minutes_and_seconds (minutes seconds millis : Z) :
  0 <= minutes ->
  0 <= seconds < 60 ->
  0 <= millis < 500 ->
  0 < 60000 * minutes + 1000 * seconds + millis ->
  safe_integer (60000 * minutes + 1000 * seconds + millis) ->
  formatDuration (Some (60000 * minutes + 1000 * seconds + millis)) =
    pretty minutes +:+ ":" +:+ two_digits seconds.
Proof.
  intros Hmin Hsec Hms Hpos _.
  set (ms := 60000 * minutes + 1000 * seconds + millis) in *.
  rewrite (formatDuration_positive ms Hpos).
  assert (Hq : ms / 60000 = minutes).
  { symmetry. apply Z.div_unique with (r := 1000 * seconds + millis); lia. }
  assert (Hr : ms mod 60000 = 1000 * seconds + millis).
  { symmetry. apply Z.mod_unique with (q := minutes); lia. }
  assert (Hround : (ms mod 60000 + 500) / 1000 = seconds).
  { rewrite Hr. symmetry. apply Z.div_unique with (r := millis + 500); lia. }
  rewrite Hq, Hround. reflexivity.
Qed.

Lemma formatDuration_minutes_and_seconds_witness :
  formatDuration (Some 3723400) = "62:03".
Proof.
  apply (formatDuration_minutes_and_seconds 62 3 400);
    [lia|lia|lia|lia|unfold safe_integer, MAX_SAFE_INTEGER; lia].
Defined.

(** * Instances *)

Lemma authenticate_denied_witness :
  exists m',
    authenticate (visited [favicon; refused; granted] (answers (Success response_B)))
      = (Throw (AuthorizationDenied "access_denied"), m') /\
    sent m' = [] /\
    tokenData (self m') = None.
Proof.
  destruct (authenticate_denied
              (visited [favicon; refused; granted] (answers (Success response_B)))
              [favicon] [granted] refused "access_denied")
    as (m' & Hrun & _ & Hself & _ & Hsent & _);
    [reflexivity|reflexivity|reflexivity|reflexivity|discriminate|].
  exists m'. split; [exact Hrun|]. split; [exact Hsent|]. rewrite Hself. reflexivity.
Defined.

Lemma authenticate_without_code_witness :
  exists m',
    authenticate (visited [favicon; codeless] (answers (Success response_B)))
      = (Throw NoAuthorizationCode, m') /\
    sent m' = [].
Proof.
  destruct (authenticate_without_code
              (visited [favicon; codeless] (answers (Success response_B)))
              first_state [favicon] [] codeless)
    as (m' & Hrun & _ & _ & Hsent & _);
    [vm_compute; reflexivity|reflexivity|reflexivity|reflexivity|reflexivity
    |reflexivity|reflexivity|].
  exists m'. split; [exact Hrun|exact Hsent].
Defined.

Lemma authenticate_times_out_witness :
  exists m',
    authenticate (visited [favicon; favicon] (answers (Success response_B)))
      = (Throw CallbackTimeout, m') /\
    now (world m') = 1300000 /\
    sent m' = [].
Proof.
  destruct (authenticate_times_out
              (visited [favicon; favicon] (answers (Success response_B))))
    as (m' & Hrun & _ & Hnow & _ & _ & Hsent & _); [reflexivity|].
  exists m'. split; [exact Hrun|]. split; [exact Hnow|exact Hsent].
Defined.


Lemma authenticate_exchange_fails_witness :
  exists m',
    authenticate (visited [granted] (answers (HttpFailure 400)))
      = (Throw ExchangeFailed, m') /\
    responses (trace (world m')) = [200] /\
    tokenData (self m') = None.
Proof.
  destruct (authenticate_exchange_fails
              (visited [granted] (answers (HttpFailure 400)))
              first_state "code-1" [] [] granted)
    as (m' & Hrun & _ & Hresp & _ & Hself & _);
    [vm_compute; reflexivity|reflexivity|reflexivity|reflexivity|reflexivity
    |reflexivity|reflexivity|discriminate|left; exists 400; reflexivity|].
  exists m'. split; [exact Hrun|]. split; [exact Hresp|]. rewrite Hself. reflexivity.
Defined.

(** A token file whose record expires in fifty milliseconds, with a
    refresh token and an endpoint that would answer. *)
Lemma cli_refresh_needs_valid_token_witness :
  exit_code
    (auth_cli posix_join (npm_run_auth ["refresh"])
       (shell configured (disk (Json (Some record_A))) 4599950
          (answers (Success response_B)))) = Some 1 /\
  posts (trace (final
    (auth_cli posix_join (npm_run_auth ["refresh"])
       (shell configured (disk (Json (Some record_A))) 4599950
          (answers (Success response_B)))))) = [].
Proof.
  destruct (cli_refresh_needs_valid_token posix_join
              (shell configured (disk (Json (Some record_A))) 4599950
                 (answers (Success response_B))) [])
    as (Hexit & _ & _ & _ & Hposts).
  - split; reflexivity.
  - intros t Ht. vm_compute in Ht. injection Ht as <-. cbn. lia.
  - split; [exact Hexit|exact Hposts].
Defined.

Lemma cli_status_reports_the_store_witness :
  stdout (auth_cli posix_join (npm_run_auth ["status"])
            (shell configured (disk (Json (Some record_A))) 1000000 [])) =
    ["Status: Authenticated"; "You have valid tokens stored."].
Proof.
  apply (cli_status_reports_the_store posix_join
           (shell configured (disk (Json (Some record_A))) 1000000 []) []).
  - split; reflexivity.
  - exists record_A. split; [reflexivity|cbn; lia].
Defined.

Lemma cli_logout_then_status_witness :
  stdout (auth_cli posix_join (npm_run_auth ["status"])
            (final (auth_cli posix_join (npm_run_auth ["logout"])
                      (shell configured (disk (Json (Some record_A))) 1000000 [])))) =
    ["Status: Not authenticated"; "Run 'npm run auth' to authenticate."].
Proof.
  apply (cli_logout_then_status posix_join
           (shell configured (disk (Json (Some record_A))) 1000000 [])).
  - split; reflexivity.
  - reflexivity.
Defined.

Lemma server_needs_valid_token_witness :
  fst (server_startup posix_join
         (shell configured (disk (Json (Some record_A))) 4599950
            (answers (Success response_B)))) = None /\
  is_Some (fst (server_startup posix_join
                  (shell configured (disk (Json (Some record_A))) 1000000 []))).
Proof.
  split.
  - destruct (server_needs_valid_token posix_join
                (shell configured (disk (Json (Some record_A))) 4599950
                   (answers (Success response_B))))
      as (_ & _ & Hiff); [reflexivity|split; reflexivity|].
    destruct (fst (server_startup posix_join _)) as [c|] eqn:Hstart; [|reflexivity].
    exfalso. destruct (proj1 Hiff ltac:(eexists; reflexivity)) as (t & Hfile & Hgt).
    vm_compute in Hfile. injection Hfile as <-. cbn in Hgt. lia.
  - apply (server_needs_valid_token posix_join
             (shell configured (disk (Json (Some record_A))) 1000000 []));
      [reflexivity|split; reflexivity|].
    exists record_A. split; [reflexivity|cbn; lia].
Defined.

Lemma client_reuses_refreshed_token_witness :
  exists c' w',
    authorization {| tokenProvider := inr (self (scenario 4599950 [])) |}
      (world (scenario 4599950 (answers (Success response_B)))) =
      (Ok "Bearer B", (c', w')) /\
    authorization c' w' = (Ok "Bearer B", (c', w')).
Proof.
  destruct (client_reuses_refreshed_token (self (scenario 4599950 []))
              (world (scenario 4599950 (answers (Success response_B))))
              record_A "R" response_B eq_refl)
    as (c' & w' & Hfirst & _ & Hsecond);
    [cbn; lia|reflexivity|discriminate|reflexivity|cbn; lia|].
  exists c', w'. split; [exact Hfirst|exact Hsecond].
Defined.

(** * From a login to the next process *)



Section Login.

Variable path_join : string -> string -> string.


End Login.

